(** * health-care backend: admin creation and admin listing

    A shallow embedding of the two services of the backend
    ([userService.createAdmin], [AdminService.getAllFromDB]) and of the
    request handlers in front of them, together with the properties the
    specification states about them.

    The services are TypeScript over untyped payloads ([params: any],
    [data: any]), so the embedding works on a small universe of JavaScript
    values.  The data-access client (Prisma), the password hash (bcrypt) and
    the database schema are outside the sources: the schema and the hash are
    parameters of the development, the client is described by the contract
    the services rely on. *)

From Stdlib Require Import String Ascii List ZArith Bool Lia.
From Stdlib Require Import DecimalString Permutation.
Import ListNotations.
Local Open Scope string_scope.
Local Open Scope list_scope.

(** ** JavaScript values *)

Module JS.

(** The values the services can be handed.  An object is the list of its own
    enumerable properties, in the order [Object.keys] enumerates them, with
    pairwise distinct keys; arrays are objects keyed by their indices. *)
#[warnings="-register-all"]
Inductive value : Type :=
| VUndefined
| VNull
| VBool (b : bool)
| VNum (n : Z)
| VStr (s : string)
| VObj (props : list (string * value)).

Definition object := list (string * value).

(** What a [throw] carries: an [Error] instance (with its [name] and
    [message]) or any other value. *)
Inductive thrown : Type :=
| ErrorObj (name message : string)
| Raw (v : value).

(** The result of evaluating code that may throw (or, for an [async]
    function, of awaiting its promise). *)
Inductive outcome (A : Type) : Type :=
| Ok (a : A)
| Throw (e : thrown).
Arguments Ok {A} a.
Arguments Throw {A} e.

Definition bind {A B} (m : outcome A) (k : A -> outcome B) : outcome B :=
  match m with
  | Ok a => k a
  | Throw e => Throw e
  end.

Notation "x <- m ;; k" := (bind m (fun x => k))
  (at level 61, m at next level, right associativity).

Definition TypeError (message : string) : thrown := ErrorObj "TypeError" message.

(** [ToBoolean]: the falsy values are [undefined], [null], [false], [0] and
    the empty string. *)
Definition truthy (v : value) : bool :=
  match v with
  | VUndefined | VNull => false
  | VBool b => b
  | VNum n => negb (n =? 0)%Z
  | VStr s => negb (s =? "")
  | VObj _ => true
  end.

(** Own-property lookup in a property list. *)
Fixpoint lookup (k : string) (o : object) : option value :=
  match o with
  | [] => None
  | (k', v) :: o' => if k' =? k then Some v else lookup k o'
  end.

(** [o[key]] on an object without inherited properties of that name: the
    own property, or [undefined]. *)
Definition prop (o : object) (key : string) : value :=
  match lookup key o with
  | Some v => v
  | None => VUndefined
  end.

(** [Object.keys(o)] *)
Definition keys (o : object) : list string := map fst o.

Definition index_key (i : nat) : string :=
  NilEmpty.string_of_uint (Nat.to_uint i).

(** The own enumerable properties of a string primitive: its characters,
    keyed by index. *)
Fixpoint chars_from (i : nat) (s : string) : object :=
  match s with
  | EmptyString => []
  | String c s' => (index_key i, VStr (String c EmptyString)) :: chars_from (S i) s'
  end.

(** The own enumerable properties [CopyDataProperties] takes from a source
    that is not [undefined] or [null] (object spread and object rest). *)
Definition own_props (v : value) : object :=
  match v with
  | VObj o => o
  | VStr s => chars_from 0 s
  | _ => []
  end.

(** [v.k] for a property name [k] that no prototype defines (every name read
    by the services: [searchTerm], [password], [admin], [email]): a
    [TypeError] on [undefined] and [null], the own property if there is one,
    [undefined] otherwise. *)
Definition get (v : value) (k : string) : outcome value :=
  match v with
  | VUndefined => Throw (TypeError ("Cannot read properties of undefined (reading '" ++ k ++ "')"))
  | VNull => Throw (TypeError ("Cannot read properties of null (reading '" ++ k ++ "')"))
  | _ => Ok (prop (own_props v) k)
  end.

(** [const { k, ...rest } = v]: throws on [undefined] and [null]; otherwise
    [rest] holds the own enumerable properties of [v] other than [k], in
    order. *)
Definition without (k : string) (o : object) : object :=
  filter (fun p => negb (fst p =? k)) o.

Definition destructure_rest (k : string) (v : value) : outcome (value * object) :=
  match v with
  | VUndefined =>
      Throw (TypeError ("Cannot destructure property '" ++ k ++ "' of 'params' as it is undefined."))
  | VNull =>
      Throw (TypeError ("Cannot destructure property '" ++ k ++ "' of 'params' as it is null."))
  | _ =>
      Ok (prop (own_props v) k, without k (own_props v))
  end.

(** [a || b] on strings. *)
Definition or_else (a b : string) : string :=
  if a =? "" then b else a.

End JS.
Import JS.

(** ** Text matching *)

Module Text.

Definition lower_ascii (c : ascii) : ascii :=
  let n := nat_of_ascii c in
  if ((65 <=? n) && (n <=? 90))%nat then ascii_of_nat (n + 32) else c.

Fixpoint lower (s : string) : string :=
  match s with
  | EmptyString => EmptyString
  | String c s' => String (lower_ascii c) (lower s')
  end.

Fixpoint starts_with (p s : string) : bool :=
  match p, s with
  | EmptyString, _ => true
  | String _ _, EmptyString => false
  | String a p', String b s' => if Ascii.eqb a b then starts_with p' s' else false
  end.

(** [contains s p]: [p] occurs in [s] as a contiguous substring. *)
Fixpoint contains (s p : string) : bool :=
  starts_with p s ||
  match s with
  | EmptyString => false
  | String _ s' => contains s' p
  end.

(** Containment up to the case of the letters A-Z. *)
Definition icontains (s p : string) : bool :=
  contains (lower s) (lower p).

(** Text is UTF-8: a byte [10xxxxxx] continues a character, and a character
    starts where the next byte is not one of these. *)
Definition is_continuation (c : ascii) : bool :=
  let n := nat_of_ascii c in ((128 <=? n) && (n <? 192))%nat.

Definition at_boundary (s : string) : bool :=
  match s with
  | EmptyString => true
  | String c _ => negb (is_continuation c)
  end.

Fixpoint skip_continuation (s : string) : string :=
  match s with
  | EmptyString => EmptyString
  | String c s' => if is_continuation c then skip_continuation s' else s
  end.

(** [like p s]: the text [s] matches the SQL [LIKE] pattern [p], in which
    [%] stands for any run of characters, [_] for any one character, and a
    backslash makes the character after it stand for itself.  (A pattern
    that ends in a lone backslash is refused by the database; the patterns
    built for [contains] end in [%].) *)
Fixpoint like (p : string) : string -> bool :=
  match p with
  | EmptyString =>
      fun s => match s with EmptyString => true | String _ _ => false end
  | String c p' =>
      if Ascii.eqb c "%" then
        fix any (s : string) : bool :=
          (at_boundary s && like p' s) ||
          match s with
          | EmptyString => false
          | String _ s' => any s'
          end
      else if Ascii.eqb c "_" then
        fun s =>
          match s with
          | EmptyString => false
          | String _ s' => like p' (skip_continuation s')
          end
      else if Ascii.eqb c "\" then
        match p' with
        | EmptyString => fun _ => false
        | String c' p'' =>
            fun s =>
              match s with
              | EmptyString => false
              | String a s' => Ascii.eqb a c' && like p'' s'
              end
        end
      else
        fun s =>
          match s with
          | EmptyString => false
          | String a s' => Ascii.eqb a c && like p' s'
          end
  end.

End Text.

(** ** The data-access client *)

Module Prisma.

(** The two tables the services touch; a row is an object. *)
Record store : Type := mkStore {
  users : list object;
  admins : list object
}.

(** What the services need from [schema.prisma] and from the database
    behind it, neither among the sources, taken as a parameter: the text
    columns of the [Admin] model; for each model the check the database runs
    on an insert (required and unknown fields, types, unique constraints),
    giving the error it raises if it rejects the row; and the lower-casing
    that the database's collation applies to the letters outside A-Z when
    it compares text without regard to case. *)
Record schema : Type := mkSchema {
  admin_columns : list string;
  user_violation : store -> object -> option thrown;
  admin_violation : store -> object -> option thrown;
  lower_beyond_ascii : string -> string
}.

(** The lower-casing of a case-insensitive comparison: A-Z as [Text.lower]
    does, the other letters as the collation does. *)
Definition ilower (sch : schema) (s : string) : string :=
  lower_beyond_ascii sch (Text.lower s).

(** The pattern the client hands the database for [{contains: term}]: the
    term as it is, unescaped, between two [%]. *)
Definition contains_pattern (term : string) : string :=
  ("%" ++ term ++ "%")%string.

(** The condition on one field: [{contains: v, mode: m}] or [{equals: v}]. *)
Inductive field_filter : Type :=
| Contains (v : value) (mode : string)
| Equals (v : value).

(** The fragment of [Prisma.AdminWhereInput] the listing service builds:
    [{AND: [...]}], [{OR: [...]}] and [{[field]: condition}]. *)
#[warnings="-register-all"]
Inductive where_input : Type :=
| AND (clauses : list where_input)
| OR (clauses : list where_input)
| Field (field : string) (cond : field_filter).

Definition ValidationError (message : string) : thrown :=
  ErrorObj "PrismaClientValidationError" message.

Definition in_columns (cols : list string) (f : string) : bool :=
  existsb (String.eqb f) cols.

(** The client's validation of a filter, by the contract the specification
    gives the data-access layer in sections 4.2 and 6: a filter on a field
    that does not exist is an unknown-field error; the conditions are
    equality and case-insensitive containment on text.  A value that is not
    text is refused as well; [undefined] stands for no value and is
    accepted. *)
Definition invalid_cond (c : field_filter) : option thrown :=
  match c with
  | Contains (VStr _) m =>
      if (m =? "insensitive") || (m =? "default") then None
      else Some (ValidationError "Invalid value for argument `mode`")
  | Contains VUndefined _ => None
  | Contains _ _ => Some (ValidationError "Invalid value for argument `contains`")
  | Equals (VStr _) => None
  | Equals VUndefined => None
  | Equals _ => Some (ValidationError "Invalid value for argument `equals`")
  end.

Fixpoint invalid (cols : list string) (w : where_input) : option thrown :=
  let fix first (l : list where_input) : option thrown :=
    match l with
    | [] => None
    | w' :: l' =>
        match invalid cols w' with
        | Some e => Some e
        | None => first l'
        end
    end in
  match w with
  | AND l => first l
  | OR l => first l
  | Field f c =>
      if in_columns cols f then invalid_cond c
      else Some (ValidationError ("Unknown argument `" ++ f ++ "`"))
  end.

(** The text a row holds in a column, if it holds text there. *)
Definition text_of (r : object) (f : string) : option string :=
  match lookup f r with
  | Some (VStr s) => Some s
  | _ => None
  end.

(** When a row satisfies a condition (section 6 of the specification:
    AND/OR of equality and case-insensitive-contains conditions).
    [contains] is a [LIKE] on the pattern of the term, with both sides
    lower-cased in the mode [insensitive] (an [ILIKE]), so [%], [_] and the
    backslash in the term keep their meaning in patterns.  A condition
    whose value is [undefined] constrains nothing. *)
Definition sat_cond (sch : schema) (r : object) (f : string) (c : field_filter) : bool :=
  match c with
  | Contains (VStr p) m =>
      match text_of r f with
      | Some s =>
          if m =? "insensitive"
          then Text.like (ilower sch (contains_pattern p)) (ilower sch s)
          else Text.like (contains_pattern p) s
      | None => false
      end
  | Equals (VStr p) =>
      match text_of r f with
      | Some s => s =? p
      | None => false
      end
  | Contains VUndefined _ | Equals VUndefined => true
  | _ => false
  end.

Fixpoint sat (sch : schema) (r : object) (w : where_input) : bool :=
  match w with
  | AND l => forallb (sat sch r) l
  | OR l => existsb (sat sch r) l
  | Field f c => sat_cond sch r f c
  end.

(** [prisma.admin.findMany({where: w})]: a validation error, or the rows of
    the [Admin] table that satisfy [w], in table order. *)
Definition findMany (sch : schema) (w : where_input) (st : store) : outcome (list object) :=
  match invalid (admin_columns sch) w with
  | Some e => Throw e
  | None => Ok (filter (fun r => sat sch r w) (admins st))
  end.

(** A write queued for a transaction: run on a store, it gives the created
    row and the new store, or throws. *)
Definition write : Type := store -> outcome (object * store).

(** [prisma.user.create({data})] and [prisma.admin.create({data})].  The
    columns the database fills in by itself are not modelled: the created
    row is [data]. *)
Definition user_create (sch : schema) (data : object) : write :=
  fun st =>
    match user_violation sch st data with
    | Some e => Throw e
    | None => Ok (data, mkStore (users st ++ [data]) (admins st))
    end.

Definition admin_create (sch : schema) (data : object) : write :=
  fun st =>
    match admin_violation sch st data with
    | Some e => Throw e
    | None => Ok (data, mkStore (users st) (admins st ++ [data]))
    end.

(** The writes of a transaction run in order, each on the store the
    previous one left. *)
Fixpoint run_writes (ws : list write) (st : store) : outcome (list object * store) :=
  match ws with
  | [] => Ok ([], st)
  | w :: ws' =>
      p <- w st ;;
      q <- run_writes ws' (snd p) ;;
      Ok (fst p :: fst q, snd q)
  end.

(** [prisma.$transaction([...])], by the client's contract (an atomic
    multi-statement operation, section 6 of the specification and its
    glossary): the rows created and the store with every write applied, or
    the error of the first write that fails and the store as it was. *)
Definition transaction (ws : list write) (st : store) : outcome (list object) * store :=
  match run_writes ws st with
  | Ok (rows, st') => (Ok rows, st')
  | Throw e => (Throw e, st)
  end.

End Prisma.

(** ** Admin listing: [admin.service.ts] *)

Module AdminService.
Import Prisma.

Definition adminSearchableFields : list string := ["name"; "email"].

(** The [OR] clause pushed when [params.searchTerm] is truthy. *)
Definition search_clause (searchTerm : value) : where_input :=
  OR (map (fun field => Field field (Contains searchTerm "insensitive"))
          adminSearchableFields).

(** The [AND] clause pushed when [rest] has a key. *)
Definition rest_clause (rest : object) : where_input :=
  AND (map (fun key => Field key (Equals (prop rest key))) (keys rest)).

(** [addCondition] after the two [if]s. *)
Definition addCondition (searchTerm : value) (rest : object) : list where_input :=
  (if truthy searchTerm then [search_clause searchTerm] else []) ++
  (if (0 <? length (keys rest))%nat then [rest_clause rest] else []).

(** The part of [getAllFromDB] before the query: destructuring [params] and
    building [whereConditions]. *)
Definition whereConditions (params : value) : outcome where_input :=
  d <- destructure_rest "searchTerm" params ;;
  searchTerm <- get params "searchTerm" ;;
  Ok (AND (addCondition searchTerm (snd d))).

Definition getAllFromDB (sch : schema) (params : value) (st : store) : outcome (list object) :=
  w <- whereConditions params ;;
  findMany sch w st.

End AdminService.

(** ** Admin creation: [user.service.ts] *)

Module userService.
Import Prisma.

(** [bcrypt.hash(data, rounds)], awaited: the hash, or a rejection.  The
    primitive picks a random salt; one run of it is a parameter. *)
Definition hasher : Type := value -> Z -> outcome string.

(** [UserRole.ADMIN] *)
Definition UserRole_ADMIN : value := VStr "ADMIN".

Definition userData (email : value) (hashedPassword : string) : object :=
  [("email", email); ("password", VStr hashedPassword); ("role", UserRole_ADMIN)].

(** [{ ...data.admin }] *)
Definition adminData (admin : value) : object := own_props admin.

(** [const [createdUser, createdAdmin] = rows]: the element at an index, or
    [undefined]. *)
Definition element (rows : list object) (i : nat) : value :=
  match nth_error rows i with
  | Some r => VObj r
  | None => VUndefined
  end.

(** What [createAdmin] evaluates before it opens the transaction: the hash
    of [data.password] with cost 10, then the two records. *)
Definition prepare (hash : hasher) (data : value) : outcome (object * object) :=
  password <- get data "password" ;;
  hashedPassword <- hash password 10%Z ;;
  admin <- get data "admin" ;;
  email <- get admin "email" ;;
  Ok (userData email hashedPassword, adminData admin).

Definition createAdmin (hash : hasher) (sch : schema) (data : value) (st : store)
  : outcome value * store :=
  match prepare hash data with
  | Throw e => (Throw e, st)
  | Ok (u, a) =>
      match transaction [user_create sch u; admin_create sch a] st with
      | (Ok rows, st') =>
          (Ok (VObj [("createdUserData", element rows 0);
                     ("createdAdminData", element rows 1)]), st')
      | (Throw e, st') => (Throw e, st')
      end
  end.

End userService.

(** ** Request handlers: [user.controller.ts], [admin.controller.ts] *)

Module Http.

Record request : Type := mkRequest {
  body : value;
  query : object
}.

(** [res.status(code).json(payload)] *)
Record response : Type := mkResponse {
  status : Z;
  json : value
}.

Definition OK : Z := 200.
Definition INTERNAL_SERVER_ERROR : Z := 500.

(** The payload of the [catch] block of both handlers. *)
Definition failure (fallback : string) (err : thrown) : response :=
  match err with
  | ErrorObj name message =>
      mkResponse INTERNAL_SERVER_ERROR
        (VObj [("success", VBool false);
               ("message", VStr (or_else name fallback));
               ("error", VStr message)])
  | Raw v =>
      mkResponse INTERNAL_SERVER_ERROR
        (VObj [("success", VBool false);
               ("message", VStr fallback);
               ("error", v)])
  end.

Definition success (message : string) (data : value) : response :=
  mkResponse OK (VObj [("status", VNum OK); ("message", VStr message); ("data", data)]).

(** Modelled from the spec: [shared/pick], which is not among the sources.
    The handler repacks the query into the subset of the listed parameters
    that the request carries (section 6: any subset of these query
    parameters; section 4.2: absent keys are excluded). *)
Definition pick (obj : object) (ks : list string) : object :=
  flat_map (fun k => match lookup k obj with
                     | Some v => [(k, v)]
                     | None => []
                     end) ks.

Definition has_own_key (k : string) (obj : object) : bool :=
  match lookup k obj with
  | Some _ => true
  | None => false
  end.

End Http.

Module userController.
Import Prisma Http.

Definition createAdmin (hash : userService.hasher) (sch : schema) (req : request) (st : store)
  : response * store :=
  match userService.createAdmin hash sch (body req) st with
  | (Ok result, st') => (success "Admin Created Successfully!" result, st')
  | (Throw err, st') => (failure "Failed to create Admin" err, st')
  end.

End userController.

Module AdminController.
Import Prisma Http.

Definition filterable : list string := ["name"; "email"; "searchTerm"; "contactNumber"].

Definition rows_value (rows : list object) : value :=
  VObj (combine (map index_key (seq 0 (length rows))) (map VObj rows)).

(** The handler with the [try]/[catch] (the second listing of
    [admin.controller.ts]). *)
Definition getAllFromDB (sch : schema) (req : request) (st : store) : response :=
  let safeQuery := pick (query req) filterable in
  match AdminService.getAllFromDB sch (VObj safeQuery) st with
  | Ok result => success "Admins Fetched Successfully!" (rows_value result)
  | Throw err => failure "Failed to fetch Admins" err
  end.

(** The handler of the first listing of [admin.controller.ts]: it calls the
    service with no argument and has no [catch], so what the service throws
    rejects the handler and no response is sent. *)
Definition getAllFromDB_bare (sch : schema) (req : request) (st : store) : outcome response :=
  result <- AdminService.getAllFromDB sch VUndefined st ;;
  Ok (success "Admins Fetched Successfully!" (rows_value result)).

End AdminController.

(** ** The result guarantee of the listing, in the specification's words *)

Module Spec.
Import Prisma.

(** A filter-parameter mapping as it comes from a query string: parameter
    names to text. *)
Definition query : Type := list (string * string).

Definition params_of (q : query) : object :=
  map (fun p => (fst p, VStr (snd p))) q.

Fixpoint assoc (k : string) (q : query) : option string :=
  match q with
  | [] => None
  | (k', v) :: q' => if k' =? k then Some v else assoc k q'
  end.

Definition field_equals (r : object) (f v : string) : bool :=
  match text_of r f with
  | Some s => s =? v
  | None => false
  end.

Definition field_icontains (r : object) (f p : string) : bool :=
  match text_of r f with
  | Some s => Text.icontains s p
  | None => false
  end.

(** The key/value pairs other than the search term. *)
Definition exact_pairs (q : query) : query :=
  filter (fun p => negb (fst p =? "searchTerm")) q.

(** Section 4.2, result guarantee: (substring match on [name] or [email],
    or no non-empty search term) and (exact match on every other key). *)
Definition substring_part (q : query) (r : object) : bool :=
  match assoc "searchTerm" q with
  | Some s =>
      if s =? "" then true
      else field_icontains r "name" s || field_icontains r "email" s
  | None => true
  end.

Definition exact_part (q : query) (r : object) : bool :=
  forallb (fun p => field_equals r (fst p) (snd p)) (exact_pairs q).

Definition matches (q : query) (r : object) : bool :=
  substring_part q r && exact_part q r.

Fixpoint distinct (l : list string) : bool :=
  match l with
  | [] => true
  | k :: l' => negb (existsb (String.eqb k) l') && distinct l'
  end.

(** The mappings on which the query is well formed for a schema: distinct
    keys, every key other than [searchTerm] a column, and the two searchable
    fields columns. *)
Definition well_formed (sch : schema) (q : query) : bool :=
  distinct (map fst q) &&
  forallb (in_columns (admin_columns sch)) (map fst (exact_pairs q)) &&
  in_columns (admin_columns sch) "name" &&
  in_columns (admin_columns sch) "email".

End Spec.

(** ** What the client selects for a query-string mapping *)

Module Listing.
Import Prisma.

(** The field holds text that matches the pattern of the term, without
    regard to case. *)
Definition field_like (sch : schema) (r : object) (f term : string) : bool :=
  match text_of r f with
  | Some s => Text.like (ilower sch (contains_pattern term)) (ilower sch s)
  | None => false
  end.

Definition search_part (sch : schema) (q : Spec.query) (r : object) : bool :=
  match Spec.assoc "searchTerm" q with
  | Some s =>
      if s =? "" then true
      else field_like sch r "name" s || field_like sch r "email" s
  | None => true
  end.

Definition selects (sch : schema) (q : Spec.query) (r : object) : bool :=
  search_part sch q r && Spec.exact_part q r.

(** A term without [%], [_] and backslash. *)
Fixpoint no_wildcard (s : string) : bool :=
  match s with
  | EmptyString => true
  | String c s' =>
      negb (Ascii.eqb c "%") && negb (Ascii.eqb c "_") && negb (Ascii.eqb c "\")
      && no_wildcard s'
  end.

(** A plain term: no wildcard in it, and it starts a character. *)
Definition plain (s : string) : bool :=
  no_wildcard s && Text.at_boundary s.

Definition plain_search (q : Spec.query) : bool :=
  match Spec.assoc "searchTerm" q with
  | Some s => plain s
  | None => true
  end.

(** The collation lower-cases nothing in a text beyond its letters A-Z (as
    it does on ASCII text). *)
Definition folds_as_ascii (sch : schema) (s : string) : bool :=
  ilower sch s =? Text.lower s.

Definition row_folds_as_ascii (sch : schema) (r : object) : bool :=
  forallb (fun f => match text_of r f with
                    | Some s => folds_as_ascii sch s
                    | None => true
                    end) AdminService.adminSearchableFields.

(** The same of the pattern of the search term and of the searchable fields
    of every admin row. *)
Definition folding_is_ascii (sch : schema) (q : Spec.query) (st : store) : bool :=
  match Spec.assoc "searchTerm" q with
  | Some s => folds_as_ascii sch (contains_pattern s)
  | None => true
  end && forallb (row_folds_as_ascii sch) (admins st).

End Listing.

(** ** A fixture: a schema, a hash and a store to run the services on *)

Module Fixture.
Import Prisma.

Definition email_taken (rows : list object) (e : string) : bool :=
  existsb (fun r => match text_of r "email" with
                    | Some e' => e' =? e
                    | None => false
                    end) rows.

Definition unique_email (rows : list object) (data : object) : option thrown :=
  match text_of data "email" with
  | None => Some (ValidationError "Argument `email` is missing.")
  | Some e =>
      if email_taken rows e
      then Some (ErrorObj "PrismaClientKnownRequestError"
                          "Unique constraint failed on the fields: (`email`)")
      else None
  end.

Definition sch : schema :=
  mkSchema ["name"; "email"; "contactNumber"]
           (fun st data => unique_email (users st) data)
           (fun st data => unique_email (admins st) data)
           (fun s => s).

(** A stand-in for the hash primitive: it marks the text and keeps the cost
    in the mark; it rejects what is not text. *)
Definition hash : userService.hasher :=
  fun data rounds =>
    match data with
    | VStr p => Ok ("$2b$" ++ NilEmpty.string_of_int (Z.to_int rounds) ++ "$" ++ p)%string
    | _ => Throw (ErrorObj "Error" "data and salt arguments required")
    end.

Definition john : object :=
  [("name", VStr "John Doe"); ("email", VStr "j@x.com"); ("contactNumber", VStr "01")].
Definition jane : object :=
  [("name", VStr "Jane Roe"); ("email", VStr "jane@x.com"); ("contactNumber", VStr "02")].
Definition anon : object :=
  [("name", VStr ""); ("email", VStr "n@x.com"); ("contactNumber", VStr "03")].

(** A schema whose [Admin] model has no [contactNumber] column. *)
Definition narrow : schema :=
  mkSchema ["name"; "email"] (user_violation sch) (admin_violation sch)
           (lower_beyond_ascii sch).

Definition st : store := mkStore [] [john; jane; anon].
Definition empty : store := mkStore [] [].

Definition payload : value :=
  VObj [("password", VStr "Secret1");
        ("admin", VObj [("email", VStr "a@x.com"); ("name", VStr "A")])].

End Fixture.

(** ** The pairing of admins and users *)

Module Pairing.
Import Prisma.

(** The data model's intent for the two tables: an admin row comes with a
    user row of the same [email] whose [role] is [ADMIN]. *)
Definition has_user (st : store) (a : object) : Prop :=
  Exists (fun u => prop u "email" = prop a "email"
                   /\ prop u "role" = userService.UserRole_ADMIN)
         (users st).

Definition paired (st : store) : Prop :=
  Forall (has_user st) (admins st).

End Pairing.

(** * Properties *)

Import Prisma.


(** ** Objects and queries *)

Lemma lookup_params_of (k : string) (q : Spec.query) :
  lookup k (Spec.params_of q) = option_map VStr (Spec.assoc k q).
Proof.
  induction q as [|[k' v] q IH]; simpl; [reflexivity|].
  destruct (k' =? k); [reflexivity | exact IH].
Qed.

Lemma without_params_of (q : Spec.query) :
  without "searchTerm" (Spec.params_of q) = Spec.params_of (Spec.exact_pairs q).
Proof.
  induction q as [|[k' v] q IH]; simpl; [reflexivity|].
  unfold without in *. simpl.
  destruct (k' =? "searchTerm"); simpl; rewrite IH; reflexivity.
Qed.

Lemma keys_params_of (q : Spec.query) : keys (Spec.params_of q) = map fst q.
Proof.
  unfold keys, Spec.params_of. rewrite map_map. reflexivity.
Qed.

Lemma lookup_own (o : object) :
  NoDup (keys o) -> forall p, In p o -> lookup (fst p) o = Some (snd p).
Proof.
  induction o as [|[k v] o IH]; intros Hnd p Hin; [contradiction|].
  simpl in Hnd. inversion Hnd as [|? ? Hk Hnd']; subst.
  destruct Hin as [<-|Hin]; simpl.
  - rewrite String.eqb_refl. reflexivity.
  - destruct (k =? fst p) eqn:E.
    + apply String.eqb_eq in E. subst k.
      exfalso. apply Hk. unfold keys. apply in_map. exact Hin.
    + apply IH; assumption.
Qed.

Lemma exact_pairs_nodup (q : Spec.query) :
  NoDup (map fst q) -> NoDup (map fst (Spec.exact_pairs q)).
Proof.
  induction q as [|[k v] q IH]; simpl; intros Hnd; [constructor|].
  inversion Hnd as [|? ? Hk Hnd']; subst.
  destruct (k =? "searchTerm"); simpl; [auto|].
  constructor; [|auto].
  intros Hin. apply Hk.
  apply in_map_iff in Hin. destruct Hin as [p [Hp Hin]].
  apply in_map_iff. exists p. split; [exact Hp|].
  unfold Spec.exact_pairs in Hin. apply filter_In in Hin. tauto.
Qed.

(** On an object with distinct keys the [AND] clause pairs each key with
    its own value. *)
Lemma rest_clause_pairs (rest : object) :
  NoDup (keys rest) ->
  AdminService.rest_clause rest
  = AND (map (fun p => Field (fst p) (Equals (snd p))) rest).
Proof.
  intros Hnd. unfold AdminService.rest_clause, keys.
  rewrite map_map. f_equal. apply map_ext_in.
  intros p Hin. unfold prop.
  rewrite (lookup_own rest Hnd p Hin). reflexivity.
Qed.

(** ** Validation and satisfaction of the clauses *)

Lemma invalid_AND (cols : list string) (l : list where_input) :
  Forall (fun w => invalid cols w = None) l -> invalid cols (AND l) = None.
Proof.
  induction 1 as [|w l Hw Hl IH]; simpl; [reflexivity|].
  rewrite Hw. exact IH.
Qed.

Lemma invalid_OR (cols : list string) (l : list where_input) :
  Forall (fun w => invalid cols w = None) l -> invalid cols (OR l) = None.
Proof.
  induction 1 as [|w l Hw Hl IH]; simpl; [reflexivity|].
  rewrite Hw. exact IH.
Qed.

Lemma in_columns_In (cols : list string) (f : string) :
  in_columns cols f = true <-> In f cols.
Proof.
  unfold in_columns. rewrite existsb_exists. split.
  - intros [x [Hin E]]. apply String.eqb_eq in E. subst. exact Hin.
  - intros Hin. exists f. split; [exact Hin | apply String.eqb_refl].
Qed.

Lemma invalid_text_equalities (cols : list string) (q : Spec.query) :
  (forall k, In k (map fst q) -> In k cols) ->
  invalid cols (AND (map (fun p => Field (fst p) (Equals (snd p))) (Spec.params_of q))) = None.
Proof.
  intros Hk. apply invalid_AND. apply Forall_forall.
  intros w Hin. apply in_map_iff in Hin. destruct Hin as [[k v] [<- Hin]].
  unfold Spec.params_of in Hin. apply in_map_iff in Hin.
  destruct Hin as [[k' s] [E Hin]]. simpl in E. inversion E; subst. simpl.
  assert (Hc : in_columns cols k = true).
  { apply in_columns_In. apply Hk. apply in_map_iff. exists (k, s). split; auto. }
  rewrite Hc. reflexivity.
Qed.

Lemma invalid_search_clause (cols : list string) (s : string) :
  In "name" cols -> In "email" cols ->
  invalid cols (AdminService.search_clause (VStr s)) = None.
Proof.
  intros Hn He. apply invalid_OR.
  unfold AdminService.adminSearchableFields. simpl.
  repeat constructor; simpl.
  - apply in_columns_In in Hn. rewrite Hn. reflexivity.
  - apply in_columns_In in He. rewrite He. reflexivity.
Qed.

Lemma sat_text_equalities (sch : schema) (r : object) (q : Spec.query) :
  sat sch r (AND (map (fun p => Field (fst p) (Equals (snd p))) (Spec.params_of q)))
  = forallb (fun p => Spec.field_equals r (fst p) (snd p)) q.
Proof.
  simpl. induction q as [|[k s] q IH]; simpl; [reflexivity|].
  rewrite IH. reflexivity.
Qed.

Lemma sat_search_clause (sch : schema) (r : object) (s : string) :
  sat sch r (AdminService.search_clause (VStr s))
  = Listing.field_like sch r "name" s || Listing.field_like sch r "email" s.
Proof.
  cbn [sat AdminService.search_clause AdminService.adminSearchableFields map existsb
       sat_cond].
  unfold Listing.field_like.
  change ("insensitive" =? "insensitive") with true. cbn iota.
  rewrite orb_false_r. reflexivity.
Qed.

Lemma distinct_NoDup (l : list string) : Spec.distinct l = true -> NoDup l.
Proof.
  induction l as [|k l IH]; simpl; intros H; [constructor|].
  apply andb_true_iff in H. destruct H as [Hk Hl].
  constructor; [|auto].
  intros Hin. apply negb_true_iff in Hk.
  assert (E : existsb (String.eqb k) l = true).
  { apply existsb_exists. exists k. split; [exact Hin | apply String.eqb_refl]. }
  congruence.
Qed.

Lemma well_formed_inv (sch : schema) (q : Spec.query) :
  Spec.well_formed sch q = true ->
  NoDup (map fst q) /\
  (forall k, In k (map fst (Spec.exact_pairs q)) -> In k (admin_columns sch)) /\
  In "name" (admin_columns sch) /\ In "email" (admin_columns sch).
Proof.
  unfold Spec.well_formed. intros H.
  repeat (apply andb_true_iff in H; destruct H as [H ?]).
  repeat split.
  - apply distinct_NoDup. assumption.
  - intros k Hin. apply in_columns_In.
    match goal with Hf : forallb _ _ = true |- _ =>
      rewrite forallb_forall in Hf; apply Hf; exact Hin end.
  - apply in_columns_In. assumption.
  - apply in_columns_In. assumption.
Qed.

(** ** The listing service *)

(** The filter built for a query-string mapping with distinct keys: the
    [OR] clause for a non-empty search term, then the [AND] clause of the
    other pairs when there is one. *)
Lemma whereConditions_of_query (q : Spec.query) :
  NoDup (map fst q) ->
  AdminService.whereConditions (VObj (Spec.params_of q))
  = Ok (AND ((match Spec.assoc "searchTerm" q with
              | Some s => if s =? "" then [] else [AdminService.search_clause (VStr s)]
              | None => []
              end) ++
             (match Spec.exact_pairs q with
              | [] => []
              | _ :: _ =>
                  [AND (map (fun p => Field (fst p) (Equals (snd p)))
                            (Spec.params_of (Spec.exact_pairs q)))]
              end))).
Proof.
  intros Hnd. unfold AdminService.whereConditions. simpl. unfold prop at 1.
  rewrite lookup_params_of, without_params_of.
  unfold AdminService.addCondition. f_equal. f_equal. f_equal.
  - destruct (Spec.assoc "searchTerm" q) as [s|]; simpl; [|reflexivity].
    destruct (s =? ""); reflexivity.
  - rewrite keys_params_of.
    destruct (Spec.exact_pairs q) as [|p l] eqn:E; [reflexivity|].
    rewrite <- E. rewrite rest_clause_pairs.
    + rewrite E. reflexivity.
    + rewrite keys_params_of. apply exact_pairs_nodup. exact Hnd.
Qed.

(** The rows returned for a query-string mapping with distinct keys whose
    exact-match keys are columns: those the pattern of the search term and
    the equalities select. *)
Lemma getAllFromDB_query_rows (sch : schema) (st : store) (q : Spec.query) :
  NoDup (map fst q) ->
  (forall k, In k (map fst (Spec.exact_pairs q)) -> In k (admin_columns sch)) ->
  In "name" (admin_columns sch) -> In "email" (admin_columns sch) ->
  AdminService.getAllFromDB sch (VObj (Spec.params_of q)) st
  = Ok (filter (Listing.selects sch q) (admins st)).
Proof.
  intros Hnd Hcols Hname Hemail.
  unfold AdminService.getAllFromDB.
  rewrite (whereConditions_of_query q Hnd). simpl bind. unfold findMany.
  rewrite invalid_AND.
  - f_equal. apply filter_ext. intros r.
    unfold Listing.selects, Listing.search_part, Spec.exact_part.
    cbn [sat]. rewrite forallb_app. f_equal.
    + destruct (Spec.assoc "searchTerm" q) as [s|]; [|reflexivity].
      destruct (s =? ""); [reflexivity|].
      cbn [forallb]. rewrite sat_search_clause, andb_true_r. reflexivity.
    + destruct (Spec.exact_pairs q) as [|p l] eqn:E; [reflexivity|].
      cbn [forallb]. rewrite sat_text_equalities, andb_true_r. reflexivity.
  - apply Forall_app. split.
    + destruct (Spec.assoc "searchTerm" q) as [s|]; [|constructor].
      destruct (s =? ""); repeat constructor.
      apply invalid_search_clause; assumption.
    + destruct (Spec.exact_pairs q) as [|p l] eqn:E; repeat constructor.
      apply invalid_text_equalities. exact Hcols.
Qed.

(** *** Patterns of plain terms *)

Lemma like_percent (s : string) : Text.like "%" s = true.
Proof.
  induction s as [|c s IH]; [reflexivity|].
  change (Text.like "%" (String c s))
    with ((Text.at_boundary (String c s) && Text.like "" (String c s))
          || Text.like "%" s).
  rewrite IH. apply orb_true_r.
Qed.

Lemma like_literal_cons (c : ascii) (p s : string) :
  Ascii.eqb c "%" = false -> Ascii.eqb c "_" = false -> Ascii.eqb c "\" = false ->
  Text.like (String c p) s
  = match s with
    | EmptyString => false
    | String a s' => Ascii.eqb a c && Text.like p s'
    end.
Proof.
  intros H1 H2 H3. cbn [Text.like]. rewrite H1, H2, H3. reflexivity.
Qed.

(** A term without wildcards followed by [%] matches the texts that start
    with the term. *)
Lemma like_plain_prefix (t s : string) :
  Listing.no_wildcard t = true ->
  Text.like (t ++ "%") s = Text.starts_with t s.
Proof.
  revert s. induction t as [|c t IH]; intros s Hw.
  - apply like_percent.
  - simpl in Hw.
    apply andb_true_iff in Hw. destruct Hw as [Hw Ht].
    apply andb_true_iff in Hw. destruct Hw as [Hw H3].
    apply andb_true_iff in Hw. destruct Hw as [H1 H2].
    apply negb_true_iff in H1, H2, H3.
    change (String c t ++ "%")%string with (String c (t ++ "%")).
    rewrite (like_literal_cons c _ s H1 H2 H3).
    destruct s as [|a s]; [reflexivity|].
    simpl. rewrite (Ascii.eqb_sym a c).
    destruct (Ascii.eqb c a); [apply IH; exact Ht | reflexivity].
Qed.

Lemma starts_with_boundary (t s : string) :
  t <> "" -> Text.at_boundary t = true ->
  Text.starts_with t s = true -> Text.at_boundary s = true.
Proof.
  intros Hne Hb Hs. destruct t as [|c t]; [congruence|].
  destruct s as [|a s]; [reflexivity|].
  simpl in Hs. destruct (Ascii.eqb c a) eqn:E; [|discriminate].
  apply Ascii.eqb_eq in E. subst a. exact Hb.
Qed.

(** The pattern of a plain, non-empty term matches the texts that contain
    the term. *)
Lemma like_plain_term (t s : string) :
  Listing.plain t = true -> t <> "" ->
  Text.like (contains_pattern t) s = Text.contains s t.
Proof.
  intros Hp Hne. unfold Listing.plain in Hp.
  apply andb_true_iff in Hp. destruct Hp as [Hw Hb].
  unfold contains_pattern.
  change ("%" ++ t ++ "%")%string with (String "%" (t ++ "%")).
  induction s as [|c s IH].
  - change (Text.like (String "%" (t ++ "%")) "")
      with ((Text.at_boundary "" && Text.like (t ++ "%") "") || false).
    rewrite (like_plain_prefix t "" Hw). simpl.
    rewrite !orb_false_r. reflexivity.
  - change (Text.like (String "%" (t ++ "%")) (String c s))
      with ((Text.at_boundary (String c s) && Text.like (t ++ "%") (String c s))
            || Text.like (String "%" (t ++ "%")) s).
    rewrite IH, (like_plain_prefix t (String c s) Hw).
    change (Text.contains (String c s) t)
      with (Text.starts_with t (String c s) || Text.contains s t).
    destruct (Text.starts_with t (String c s)) eqn:E.
    + rewrite (starts_with_boundary t (String c s) Hne Hb E). reflexivity.
    + rewrite andb_false_r. reflexivity.
Qed.

Lemma lower_app (a b : string) :
  Text.lower (a ++ b) = (Text.lower a ++ Text.lower b)%string.
Proof.
  induction a as [|c a IH]; simpl; [reflexivity|]. rewrite IH. reflexivity.
Qed.

Lemma lower_contains_pattern (t : string) :
  Text.lower (contains_pattern t) = contains_pattern (Text.lower t).
Proof.
  unfold contains_pattern. rewrite !lower_app. reflexivity.
Qed.

Lemma lower_ascii_keeps_wildcards_out (c : ascii) :
  negb (Ascii.eqb c "%") && negb (Ascii.eqb c "_") && negb (Ascii.eqb c "\") = true ->
  negb (Ascii.eqb (Text.lower_ascii c) "%")
  && negb (Ascii.eqb (Text.lower_ascii c) "_")
  && negb (Ascii.eqb (Text.lower_ascii c) "\") = true.
Proof.
  destruct c as [[] [] [] [] [] [] [] []]; intros H; solve [reflexivity | discriminate H].
Qed.

Lemma lower_ascii_continuation (c : ascii) :
  Text.is_continuation (Text.lower_ascii c) = Text.is_continuation c.
Proof.
  destruct c as [[] [] [] [] [] [] [] []]; reflexivity.
Qed.

Lemma lower_plain (t : string) :
  Listing.plain t = true -> Listing.plain (Text.lower t) = true.
Proof.
  unfold Listing.plain. intros H.
  apply andb_true_iff in H. destruct H as [Hw Hb].
  apply andb_true_iff. split.
  - clear Hb. induction t as [|c t IH]; [reflexivity|].
    simpl in Hw. apply andb_true_iff in Hw. destruct Hw as [Hc Ht].
    simpl. rewrite (lower_ascii_keeps_wildcards_out c Hc). simpl. apply IH. exact Ht.
  - destruct t as [|c t]; [reflexivity|].
    simpl in *. rewrite lower_ascii_continuation. exact Hb.
Qed.

Lemma lower_not_empty (t : string) : t <> "" -> Text.lower t <> "".
Proof.
  destruct t; [congruence | discriminate].
Qed.

(** On a plain term, and where the collation adds nothing to the folding of
    A-Z, the pattern match is the case-insensitive substring test. *)
Lemma field_like_plain (sch : schema) (r : object) (f t : string) :
  Listing.plain t = true -> t <> "" ->
  Listing.folds_as_ascii sch (contains_pattern t) = true ->
  (forall s, text_of r f = Some s -> Listing.folds_as_ascii sch s = true) ->
  Listing.field_like sch r f t = Spec.field_icontains r f t.
Proof.
  intros Hp Hne Hpat Hrow.
  unfold Listing.field_like, Spec.field_icontains.
  destruct (text_of r f) as [s|] eqn:E; [|reflexivity].
  unfold Listing.folds_as_ascii in *.
  apply String.eqb_eq in Hpat. rewrite Hpat.
  specialize (Hrow s eq_refl). apply String.eqb_eq in Hrow. rewrite Hrow.
  rewrite lower_contains_pattern.
  apply like_plain_term; [apply lower_plain; exact Hp | apply lower_not_empty; exact Hne].
Qed.

Lemma selects_plain (sch : schema) (q : Spec.query) (st : store) (r : object) :
  Listing.plain_search q = true ->
  Listing.folding_is_ascii sch q st = true ->
  In r (admins st) ->
  Listing.selects sch q r = Spec.matches q r.
Proof.
  unfold Listing.plain_search, Listing.folding_is_ascii.
  intros Hp Hf Hr.
  unfold Listing.selects, Spec.matches, Listing.search_part, Spec.substring_part.
  f_equal.
  destruct (Spec.assoc "searchTerm" q) as [t|]; [|reflexivity].
  destruct (t =? "") eqn:Et; [reflexivity|].
  apply String.eqb_neq in Et.
  apply andb_true_iff in Hf. destruct Hf as [Hpat Hrows].
  rewrite forallb_forall in Hrows. specialize (Hrows r Hr).
  unfold Listing.row_folds_as_ascii, AdminService.adminSearchableFields in Hrows.
  simpl in Hrows.
  apply andb_true_iff in Hrows. destruct Hrows as [Hn He].
  rewrite andb_true_r in He.
  f_equal; apply field_like_plain; try assumption.
  - intros s Hs. rewrite Hs in Hn. exact Hn.
  - intros s Hs. rewrite Hs in He. exact He.
Qed.

(** C1, as stated, fails: the search term [%] is handed to the client as it
    is and matches every text, so every row of the fixture is returned,
    while no [name] or [email] has [%] as a substring. *)
Lemma percent_in_the_search_term_is_a_wildcard :
  ~ (forall (sch : schema) (st : store) (q : Spec.query),
        Spec.well_formed sch q = true ->
        AdminService.getAllFromDB sch (VObj (Spec.params_of q)) st
        = Ok (filter (Spec.matches q) (admins st))).
Proof.
  intros H.
  specialize (H Fixture.sch Fixture.st [("searchTerm", "%")] eq_refl).
  vm_compute in H. discriminate H.
Qed.

(** C1, amended. For every mapping of parameter names to text with distinct
    names whose names other than [searchTerm] are columns of the schema,
    [getAllFromDB] returns exactly the admin rows that the pattern
    [%searchTerm%] of a present, non-empty search term matches on [name] or
    on [email] without regard to case, and that hold its value in every other
    key.  When the term has no [%], [_] or backslash, and the collation
    lower-cases nothing but A-Z in the texts compared, these are exactly the
    rows with a case-insensitive substring match of the term on [name] or
    on [email] and equality on every other key.  With no parameters every
    row is returned. *)
Theorem getAllFromDB_returns_exactly_the_matching_rows
    (sch : schema) (st : store) (q : Spec.query) :
  Spec.well_formed sch q = true ->
  AdminService.getAllFromDB sch (VObj (Spec.params_of q)) st
    = Ok (filter (Listing.selects sch q) (admins st))
  /\ (Listing.plain_search q = true ->
      Listing.folding_is_ascii sch q st = true ->
      AdminService.getAllFromDB sch (VObj (Spec.params_of q)) st
      = Ok (filter (Spec.matches q) (admins st)))
  /\ AdminService.getAllFromDB sch (VObj []) st = Ok (admins st).
Proof.
  intros Hwf. apply well_formed_inv in Hwf.
  destruct Hwf as [Hnd [Hcols [Hname Hemail]]].
  assert (Hrows := getAllFromDB_query_rows sch st q Hnd Hcols Hname Hemail).
  split; [exact Hrows|]. split.
  - intros Hp Hf. rewrite Hrows. apply f_equal.
    apply filter_ext_in. intros r Hr.
    apply (selects_plain sch q st r Hp Hf Hr).
  - clear Hrows. unfold AdminService.getAllFromDB, findMany. simpl. f_equal.
    induction (admins st) as [|r l IH]; simpl; [reflexivity|].
    rewrite IH. reflexivity.
Qed.

(** Scenario 2 of the specification: [searchTerm=doe] finds John Doe and
    not Jane Roe. *)
Example getAllFromDB_scenario2 :
  AdminService.getAllFromDB Fixture.sch (VObj [("searchTerm", VStr "doe")]) Fixture.st
  = Ok [Fixture.john].
Proof. reflexivity. Qed.

(** The guarantee at work on the fixture: [searchTerm=DOE&email=j@x.com]
    returns John Doe alone. *)
Lemma getAllFromDB_scenario3 :
  Spec.well_formed Fixture.sch [("searchTerm", "DOE"); ("email", "j@x.com")] = true
  /\ Listing.plain_search [("searchTerm", "DOE"); ("email", "j@x.com")] = true
  /\ Listing.folding_is_ascii Fixture.sch
       [("searchTerm", "DOE"); ("email", "j@x.com")] Fixture.st = true
  /\ AdminService.getAllFromDB Fixture.sch
       (VObj [("searchTerm", VStr "DOE"); ("email", VStr "j@x.com")]) Fixture.st
     = Ok (filter (Spec.matches [("searchTerm", "DOE"); ("email", "j@x.com")])
                  (admins Fixture.st))
  /\ filter (Spec.matches [("searchTerm", "DOE"); ("email", "j@x.com")])
            (admins Fixture.st)
     = [Fixture.john].
Proof.
  split; [reflexivity|]. split; [reflexivity|]. split; [reflexivity|].
  split; [|reflexivity].
  exact (proj1 (proj2 (getAllFromDB_returns_exactly_the_matching_rows
                         Fixture.sch Fixture.st
                         [("searchTerm", "DOE"); ("email", "j@x.com")] eq_refl))
           eq_refl eq_refl).
Defined.

(** *** The clauses [getAllFromDB] builds *)

Lemma whereConditions_defined (params : value) :
  params <> VUndefined -> params <> VNull ->
  AdminService.whereConditions params
  = Ok (AND (AdminService.addCondition
               (prop (own_props params) "searchTerm")
               (without "searchTerm" (own_props params)))).
Proof.
  intros Hu Hn. destruct params; try congruence; reflexivity.
Qed.

Lemma lookup_without (k k0 : string) (o : object) :
  k <> k0 -> lookup k (without k0 o) = lookup k o.
Proof.
  intros Hk. induction o as [|[k' v] o IH]; simpl; [reflexivity|].
  unfold without in *. simpl.
  destruct (k' =? k0) eqn:E0; simpl.
  - apply String.eqb_eq in E0. subst k'.
    destruct (k0 =? k) eqn:E; [apply String.eqb_eq in E; congruence | exact IH].
  - destruct (k' =? k); [reflexivity | exact IH].
Qed.

Lemma lookup_keys (k : string) (o : object) (v : value) :
  lookup k o = Some v -> In k (keys o).
Proof.
  induction o as [|[k' v'] o IH]; simpl; [discriminate|].
  destruct (k' =? k) eqn:E.
  - apply String.eqb_eq in E. auto.
  - auto.
Qed.

Lemma keys_lookup (k : string) (o : object) :
  In k (keys o) -> exists v, lookup k o = Some v.
Proof.
  induction o as [|[k' v'] o IH]; simpl; [contradiction|].
  intros [E|Hin].
  - subst. rewrite String.eqb_refl. eauto.
  - destruct (k' =? k); eauto.
Qed.

Lemma keys_without (k k0 : string) (o : object) :
  In k (keys (without k0 o)) <-> In k (keys o) /\ k <> k0.
Proof.
  unfold keys, without. rewrite !in_map_iff. split.
  - intros [p [E Hin]]. apply filter_In in Hin. destruct Hin as [Hin Hne].
    split; [exists p; auto|].
    apply negb_true_iff, String.eqb_neq in Hne. congruence.
  - intros [[p [E Hin]] Hne]. exists p. split; [exact E|].
    apply filter_In. split; [exact Hin|].
    apply negb_true_iff, String.eqb_neq. congruence.
Qed.

(** C4. When [searchTerm] is absent, [undefined] or the empty string, the
    filter has no substring clause: it is the exact-match clause alone when
    there is another key and no clause at all otherwise, so the rows
    returned are those the exact-match clause admits. *)
Theorem empty_searchTerm_adds_no_substring_clause (params : object) :
  prop params "searchTerm" = VUndefined
  \/ prop params "searchTerm" = VStr "" ->
  AdminService.whereConditions (VObj params)
    = Ok (AND (match without "searchTerm" params with
               | [] => []
               | _ :: _ => [AdminService.rest_clause (without "searchTerm" params)]
               end))
  /\ (forall sch st,
        AdminService.getAllFromDB sch (VObj params) st
        = findMany sch (match without "searchTerm" params with
                        | [] => AND []
                        | _ :: _ => AND [AdminService.rest_clause (without "searchTerm" params)]
                        end) st)
  /\ (forall w l, AdminService.whereConditions (VObj params) = Ok (AND w) ->
                  ~ In (OR l) w).
Proof.
  intros Hs.
  assert (Hw : AdminService.whereConditions (VObj params)
               = Ok (AND (match without "searchTerm" params with
                          | [] => []
                          | _ :: _ => [AdminService.rest_clause (without "searchTerm" params)]
                          end))).
  { rewrite whereConditions_defined by discriminate. simpl own_props.
    unfold AdminService.addCondition.
    assert (Hf : truthy (prop params "searchTerm") = false)
      by (destruct Hs as [-> | ->]; reflexivity).
    rewrite Hf. simpl app.
    destruct (without "searchTerm" params); reflexivity. }
  split; [exact Hw|]. split.
  - intros sch st. unfold AdminService.getAllFromDB. rewrite Hw. simpl bind.
    destruct (without "searchTerm" params); reflexivity.
  - intros w l Hw' Hin. rewrite Hw in Hw'. inversion Hw' as [E]. subst w.
    destruct (without "searchTerm" params); simpl in Hin; [contradiction|].
    destruct Hin as [Hin|[]]. discriminate Hin.
Qed.

(** [searchTerm=&email=jane@x.com] is filtered on [email] alone. *)
Lemma empty_searchTerm_with_email :
  (prop [("searchTerm", VStr ""); ("email", VStr "jane@x.com")] "searchTerm"
     = VUndefined
   \/ prop [("searchTerm", VStr ""); ("email", VStr "jane@x.com")] "searchTerm"
     = VStr "")
  /\ AdminService.whereConditions
       (VObj [("searchTerm", VStr ""); ("email", VStr "jane@x.com")])
     = Ok (AND [AND [Field "email" (Equals (VStr "jane@x.com"))]]).
Proof.
  split; [right; reflexivity|].
  exact (proj1 (empty_searchTerm_adds_no_substring_clause
                  [("searchTerm", VStr ""); ("email", VStr "jane@x.com")]
                  (or_intror eq_refl))).
Defined.

(** The conditions of the [AND] clause are the pairs of [rest]: the keys of
    [params] other than [searchTerm], each with the value it is bound to. *)
Lemma rest_clause_conditions (params : object) (k : string) (v : value) :
  In (Field k (Equals v))
     (map (fun key => Field key (Equals (prop (without "searchTerm" params) key)))
          (keys (without "searchTerm" params)))
  <-> k <> "searchTerm" /\ lookup k params = Some v.
Proof.
  rewrite in_map_iff. split.
  - intros [key [E Hin]]. inversion E; subst. clear E.
    apply keys_without in Hin. destruct Hin as [Hin Hne].
    split; [exact Hne|].
    unfold prop. rewrite lookup_without by exact Hne.
    destruct (keys_lookup _ _ Hin) as [v Hv]. rewrite Hv. reflexivity.
  - intros [Hne Hv]. exists k. split.
    + unfold prop. rewrite lookup_without by exact Hne.
      rewrite Hv. reflexivity.
    + apply keys_without. split; [|exact Hne]. eapply lookup_keys; eauto.
Qed.

(** C5, as stated, fails: for [{name: undefined}] the [AND] clause holds an
    equality condition for [name], a key bound to [undefined]. *)
Lemma undefined_key_is_not_excluded :
  ~ (forall (params : object) (w l : list where_input) (k : string) (v : value),
        AdminService.whereConditions (VObj params) = Ok (AND w) ->
        In (AND l) w -> In (Field k (Equals v)) l -> v <> VUndefined).
Proof.
  intros H.
  apply (H [("name", VUndefined)]
           [AND [Field "name" (Equals VUndefined)]]
           [Field "name" (Equals VUndefined)] "name" VUndefined).
  - reflexivity.
  - left. reflexivity.
  - left. reflexivity.
  - reflexivity.
Qed.

(** Every key of [params] other than [searchTerm] has its condition in the
    [AND] clause, which is the last clause of the filter. *)
Lemma every_rest_key_has_its_condition (params : object) (k : string) (v : value) :
  k <> "searchTerm" -> lookup k params = Some v ->
  exists l,
    AdminService.whereConditions (VObj params)
      = Ok (AND ((if truthy (prop params "searchTerm")
                  then [AdminService.search_clause (prop params "searchTerm")]
                  else []) ++ [AND l]))
    /\ In (Field k (Equals v)) l.
Proof.
  intros Hne Hv.
  exists (map (fun key => Field key (Equals (prop (without "searchTerm" params) key)))
              (keys (without "searchTerm" params))).
  assert (Hin : In k (keys (without "searchTerm" params))).
  { apply keys_without. split; [eapply lookup_keys; eauto | exact Hne]. }
  split.
  - rewrite whereConditions_defined by discriminate. simpl own_props.
    unfold AdminService.addCondition, AdminService.rest_clause.
    destruct (keys (without "searchTerm" params)) eqn:E; [contradiction|].
    reflexivity.
  - apply rest_clause_conditions. auto.
Qed.

(** C5, amended. The [AND] clause holds one equality condition for every
    key of [params] other than [searchTerm], with the value the key is bound
    to, whatever that value is: a key bound to [undefined] is kept. *)
Theorem rest_clause_keeps_every_key (params : object) (k : string) (v : value) :
  k <> "searchTerm" -> lookup k params = Some v ->
  exists l,
    AdminService.whereConditions (VObj params)
      = Ok (AND ((if truthy (prop params "searchTerm")
                  then [AdminService.search_clause (prop params "searchTerm")]
                  else []) ++ [AND l]))
    /\ In (Field k (Equals v)) l
    /\ length l = length (keys (without "searchTerm" params))
    /\ (forall k' v', In (Field k' (Equals v')) l <->
                      k' <> "searchTerm" /\ lookup k' params = Some v').
Proof.
  intros Hne Hv.
  exists (map (fun key => Field key (Equals (prop (without "searchTerm" params) key)))
              (keys (without "searchTerm" params))).
  assert (Hin : In k (keys (without "searchTerm" params))).
  { apply keys_without. split; [eapply lookup_keys; eauto | exact Hne]. }
  split; [|split; [|split]].
  - rewrite whereConditions_defined by discriminate. simpl own_props.
    unfold AdminService.addCondition, AdminService.rest_clause.
    destruct (keys (without "searchTerm" params)) eqn:E; [contradiction|].
    reflexivity.
  - apply rest_clause_conditions. auto.
  - apply length_map.
  - intros k' v'. apply rest_clause_conditions.
Qed.

(** [{name: undefined, email: "j@x.com"}] keeps the condition on [name]. *)
Lemma rest_clause_keeps_undefined_name :
  "name" <> "searchTerm"
  /\ lookup "name" [("name", VUndefined); ("email", VStr "j@x.com")] = Some VUndefined
  /\ exists l,
       AdminService.whereConditions
         (VObj [("name", VUndefined); ("email", VStr "j@x.com")]) = Ok (AND [AND l])
       /\ In (Field "name" (Equals VUndefined)) l.
Proof.
  split; [discriminate|]. split; [reflexivity|].
  destruct (rest_clause_keeps_every_key
              [("name", VUndefined); ("email", VStr "j@x.com")] "name" VUndefined
              ltac:(discriminate) eq_refl) as [l [Hw [Hin _]]].
  exists l. split; [exact Hw | exact Hin].
Defined.





(** *** Calls without a parameter object *)

(** C9. [getAllFromDB] needs an argument other than [undefined] and [null]:
    on those two the destructuring throws a [TypeError] before any filter
    is built or any query is made, which is what happens to the handler
    that calls the service with no argument; on every other argument the
    destructuring succeeds and the filter is built. *)
Theorem getAllFromDB_requires_a_parameter_object (sch : schema) (st : store) :
  (forall params,
     (params = VUndefined \/ params = VNull)
     <-> exists m, AdminService.whereConditions params = Throw (TypeError m))
  /\ (forall params,
        params = VUndefined \/ params = VNull ->
        exists m, AdminService.getAllFromDB sch params st = Throw (TypeError m))
  /\ (forall params,
        params <> VUndefined -> params <> VNull ->
        exists w, AdminService.whereConditions params = Ok w)
  /\ (forall req,
        exists m, AdminController.getAllFromDB_bare sch req st = Throw (TypeError m)).
Proof.
  split; [|split; [|split]].
  - intros params. split.
    + intros [-> | ->]; eexists; reflexivity.
    + intros [m Hm]. destruct params; try discriminate Hm; auto.
  - intros params [-> | ->]; eexists; reflexivity.
  - intros params Hu Hn. rewrite whereConditions_defined by assumption. eauto.
  - intros req. eexists. reflexivity.
Qed.

(** *** Unknown fields *)

Lemma where_input_induction (P : where_input -> Prop) :
  (forall l, Forall P l -> P (AND l)) ->
  (forall l, Forall P l -> P (OR l)) ->
  (forall f c, P (Field f c)) ->
  forall w, P w.
Proof.
  intros HA HO HF. fix IH 1.
  intros [l|l|f c].
  - apply HA. induction l as [|w l IHl]; constructor; [apply IH | exact IHl].
  - apply HO. induction l as [|w l IHl]; constructor; [apply IH | exact IHl].
  - apply HF.
Qed.

(** Whatever the validation refuses, it refuses with a validation error. *)
Lemma invalid_is_ValidationError (cols : list string) (w : where_input) (e : thrown) :
  invalid cols w = Some e -> exists m, e = ValidationError m.
Proof.
  revert e. induction w as [l IHl|l IHl|f c] using where_input_induction; intros e.
  - simpl. induction IHl as [|w l Hw _ IH]; [discriminate|].
    destruct (invalid cols w) as [e'|] eqn:E.
    + intros H. inversion H; subst. eapply Hw; reflexivity.
    + exact IH.
  - simpl. induction IHl as [|w l Hw _ IH]; [discriminate|].
    destruct (invalid cols w) as [e'|] eqn:E.
    + intros H. inversion H; subst. eapply Hw; reflexivity.
    + exact IH.
  - simpl. destruct (in_columns cols f).
    + destruct c as [v m|v]; destruct v; simpl;
        try (intros H; inversion H; subst; eexists; reflexivity);
        try discriminate.
      destruct ((m =? "insensitive") || (m =? "default"));
        [discriminate | intros H; inversion H; subst; eexists; reflexivity].
    + intros H. inversion H; subst. eexists. reflexivity.
Qed.

Lemma invalid_AND_member (cols : list string) (l : list where_input) (w : where_input) :
  In w l -> invalid cols w <> None -> invalid cols (AND l) <> None.
Proof.
  induction l as [|w' l IH]; [contradiction|].
  intros [->|Hin] Hw; simpl.
  - destruct (invalid cols w); [discriminate | congruence].
  - destruct (invalid cols w'); [discriminate|]. apply IH; assumption.
Qed.

Lemma unknown_field_invalid (cols : list string) (f : string) (c : field_filter) :
  in_columns cols f = false -> invalid cols (Field f c) <> None.
Proof.
  intros H. simpl. rewrite H. discriminate.
Qed.

(** A key of [rest] that is not a column makes the query fail. *)
Lemma getAllFromDB_unknown_field (sch : schema) (st : store) (params : object) (k : string) :
  In k (keys (without "searchTerm" params)) ->
  in_columns (admin_columns sch) k = false ->
  exists m, AdminService.getAllFromDB sch (VObj params) st = Throw (ValidationError m).
Proof.
  intros Hin Hcol.
  apply keys_without in Hin. destruct Hin as [Hin Hne].
  destruct (keys_lookup _ _ Hin) as [v Hv].
  destruct (every_rest_key_has_its_condition params k v Hne Hv) as [l [Hw Hl]].
  unfold AdminService.getAllFromDB. rewrite Hw. simpl bind. unfold findMany.
  destruct (invalid (admin_columns sch) _) as [e|] eqn:E.
  - destruct (invalid_is_ValidationError _ _ _ E) as [m ->]. eauto.
  - exfalso. revert E. apply invalid_AND_member with (w := AND l).
    + apply in_or_app. right. left. reflexivity.
    + apply invalid_AND_member with (w := Field k (Equals v)); [exact Hl|].
      apply unknown_field_invalid. exact Hcol.
Qed.

Lemma pick_agree (q1 q2 : object) (ks : list string) :
  (forall k, In k ks -> lookup k q1 = lookup k q2) -> Http.pick q1 ks = Http.pick q2 ks.
Proof.
  intros H. unfold Http.pick. induction ks as [|k ks IH]; simpl; [reflexivity|].
  rewrite (H k) by (left; reflexivity).
  rewrite IH; [reflexivity|]. intros k' Hk'. apply H. right. exact Hk'.
Qed.

Lemma pick_keys (q : object) (ks : list string) (k : string) :
  In k (keys (Http.pick q ks)) <-> In k ks /\ Http.has_own_key k q = true.
Proof.
  unfold Http.pick, Http.has_own_key, keys. induction ks as [|k' ks IH]; simpl.
  - tauto.
  - rewrite map_app, in_app_iff, IH. clear IH.
    destruct (lookup k' q) as [v|] eqn:E; simpl.
    + split.
      * intros [[<-|[]]|[H1 H2]]; [rewrite E|]; auto.
      * intros [[<-|H1] H2]; auto.
    + split.
      * intros [[]|[H1 H2]]; auto.
      * intros [[<-|H1] H2]; [rewrite E in H2; discriminate | auto].
Qed.

(** C6, as stated, fails: a query that names [foo], which is no column of
    the schema, is answered with status 200 (and every row), not with an
    error. *)
Lemma unlisted_query_key_is_dropped_silently :
  ~ (forall (sch : schema) (req : Http.request) (st : store) (k : string),
        In k (keys (Http.query req)) -> k <> "searchTerm" ->
        in_columns (admin_columns sch) k = false ->
        Http.status (AdminController.getAllFromDB sch req st) = Http.INTERNAL_SERVER_ERROR).
Proof.
  intros H.
  specialize (H Fixture.sch (Http.mkRequest VUndefined [("foo", VStr "bar")])
                Fixture.st "foo").
  simpl in H.
  assert (E : Http.OK = Http.INTERNAL_SERVER_ERROR).
  { apply H; [left; reflexivity | discriminate | reflexivity]. }
  discriminate E.
Qed.

(** C6, amended. A key that reaches the service among the exact-match keys
    and is not a column of the schema makes the query fail with a validation
    error, which the handler reports with status 500.  The handler hands the
    service only the keys [name], [email], [searchTerm] and [contactNumber]
    of the query: requests that agree on these four get the same answer, so
    any other key is dropped without an error. *)
Theorem unknown_field_is_reported_once_it_reaches_the_service
    (sch : schema) (st : store) (params : object) (k : string) :
  In k (keys (without "searchTerm" params)) ->
  in_columns (admin_columns sch) k = false ->
  (exists m,
     AdminService.getAllFromDB sch (VObj params) st = Throw (ValidationError m)
     /\ forall req,
          Http.pick (Http.query req) AdminController.filterable = params ->
          AdminController.getAllFromDB sch req st
          = Http.mkResponse 500
              (VObj [("success", VBool false);
                     ("message", VStr "PrismaClientValidationError");
                     ("error", VStr m)]))
  /\ (forall req k',
        In k' (keys (Http.pick (Http.query req) AdminController.filterable))
        <-> In k' AdminController.filterable /\ Http.has_own_key k' (Http.query req) = true)
  /\ (forall req req',
        (forall k', In k' AdminController.filterable ->
                    lookup k' (Http.query req) = lookup k' (Http.query req')) ->
        AdminController.getAllFromDB sch req st = AdminController.getAllFromDB sch req' st).
Proof.
  intros Hin Hcol. split; [|split].
  - destruct (getAllFromDB_unknown_field sch st params k Hin Hcol) as [m Hm].
    exists m. split; [exact Hm|].
    intros req <-. unfold AdminController.getAllFromDB. rewrite Hm. reflexivity.
  - intros req k'. apply pick_keys.
  - intros req req' Hagree. unfold AdminController.getAllFromDB.
    rewrite (pick_agree _ _ _ Hagree). reflexivity.
Qed.

(** On a schema without a [contactNumber] column, [foo=bar&contactNumber=01]
    is answered with status 500: [contactNumber] reaches the service, [foo]
    does not. *)
Lemma missing_contactNumber_column_is_reported :
  In "contactNumber" (keys (without "searchTerm" [("contactNumber", VStr "01")]))
  /\ in_columns (admin_columns Fixture.narrow) "contactNumber" = false
  /\ Http.status
       (AdminController.getAllFromDB Fixture.narrow
          (Http.mkRequest VUndefined [("foo", VStr "bar"); ("contactNumber", VStr "01")])
          Fixture.st) = 500%Z.
Proof.
  split; [left; reflexivity|]. split; [reflexivity|].
  destruct (unknown_field_is_reported_once_it_reaches_the_service
              Fixture.narrow Fixture.st [("contactNumber", VStr "01")] "contactNumber"
              (or_introl eq_refl) eq_refl) as [[m [_ Hreq]] _].
  rewrite (Hreq (Http.mkRequest VUndefined
                   [("foo", VStr "bar"); ("contactNumber", VStr "01")]) eq_refl).
  reflexivity.
Defined.

(** ** The handlers *)


(** ** Admin creation *)

(** The transaction of [createAdmin], write by write. *)
Lemma transaction_user_then_admin (sch : schema) (u a : object) (st : store) :
  transaction [user_create sch u; admin_create sch a] st
  = match user_violation sch st u with
    | Some e => (Throw e, st)
    | None =>
        match admin_violation sch (mkStore (users st ++ [u]) (admins st)) a with
        | Some e => (Throw e, st)
        | None => (Ok [u; a], mkStore (users st ++ [u]) (admins st ++ [a]))
        end
    end.
Proof.
  unfold transaction, user_create, admin_create. simpl.
  destruct (user_violation sch st u); [reflexivity|]. simpl.
  destruct (admin_violation sch _ a); reflexivity.
Qed.

Lemma createAdmin_prepared (hash : userService.hasher) (sch : schema)
    (data : value) (st : store) (u a : object) :
  userService.prepare hash data = Ok (u, a) ->
  userService.createAdmin hash sch data st
  = match user_violation sch st u with
    | Some e => (Throw e, st)
    | None =>
        match admin_violation sch (mkStore (users st ++ [u]) (admins st)) a with
        | Some e => (Throw e, st)
        | None =>
            (Ok (VObj [("createdUserData", VObj u); ("createdAdminData", VObj a)]),
             mkStore (users st ++ [u]) (admins st ++ [a]))
        end
    end.
Proof.
  intros Hp. unfold userService.createAdmin. rewrite Hp.
  rewrite transaction_user_then_admin.
  destruct (user_violation sch st u); [reflexivity|].
  destruct (admin_violation sch _ a); reflexivity.
Qed.

(** C2. [createAdmin] persists the user row and the admin row as one unit:
    either it throws and the store is as it was, or it returns and the store
    has gained exactly the two rows; when either write is refused, it
    throws and neither row is in the store. *)
Theorem createAdmin_is_all_or_nothing
    (hash : userService.hasher) (sch : schema) (data : value) (st : store) :
  ((exists e, userService.createAdmin hash sch data st = (Throw e, st))
   \/ (exists u a,
         userService.prepare hash data = Ok (u, a)
         /\ userService.createAdmin hash sch data st
            = (Ok (VObj [("createdUserData", VObj u); ("createdAdminData", VObj a)]),
               mkStore (users st ++ [u]) (admins st ++ [a]))))
  /\ (forall u a,
        userService.prepare hash data = Ok (u, a) ->
        user_violation sch st u <> None
        \/ admin_violation sch (mkStore (users st ++ [u]) (admins st)) a <> None ->
        exists e, userService.createAdmin hash sch data st = (Throw e, st)).
Proof.
  split.
  - destruct (userService.prepare hash data) as [[u a]|e] eqn:Hp.
    + rewrite (createAdmin_prepared hash sch data st u a Hp).
      destruct (user_violation sch st u) as [e|]; [left; eauto|].
      destruct (admin_violation sch _ a) as [e|]; [left; eauto|].
      right. exists u, a. split; reflexivity.
    + left. exists e. unfold userService.createAdmin. rewrite Hp. reflexivity.
  - intros u a Hp Hv. rewrite (createAdmin_prepared hash sch data st u a Hp).
    destruct (user_violation sch st u) as [e|]; [eauto|].
    destruct (admin_violation sch _ a) as [e|]; [eauto|].
    destruct Hv as [Hv|Hv]; congruence.
Qed.

(** C3. For a payload with a text [password] and an [admin] object, once the
    password is hashed, [createAdmin] builds the user record
    [{email: admin.email, password: hash, role: ADMIN}] and takes the admin
    record from the [admin] object as it is; when the store accepts the two
    writes it returns both created records, and it never returns anything
    else. *)
Theorem createAdmin_builds_and_returns_both_records
    (hash : userService.hasher) (sch : schema) (data : object) (st : store)
    (p h : string) (a : object) :
  lookup "password" data = Some (VStr p) ->
  lookup "admin" data = Some (VObj a) ->
  hash (VStr p) 10%Z = Ok h ->
  userService.prepare hash (VObj data)
    = Ok ([("email", prop a "email"); ("password", VStr h); ("role", VStr "ADMIN")],
          a)
  /\ (user_violation sch st
        [("email", prop a "email"); ("password", VStr h); ("role", VStr "ADMIN")]
      = None ->
      admin_violation sch
        (mkStore (users st ++ [[("email", prop a "email");
                                ("password", VStr h); ("role", VStr "ADMIN")]])
                 (admins st)) a
      = None ->
      userService.createAdmin hash sch (VObj data) st
      = (Ok (VObj [("createdUserData",
                    VObj [("email", prop a "email");
                          ("password", VStr h); ("role", VStr "ADMIN")]);
                   ("createdAdminData", VObj a)]),
         mkStore (users st ++ [[("email", prop a "email");
                                ("password", VStr h); ("role", VStr "ADMIN")]])
                 (admins st ++ [a])))
  /\ (forall res st',
        userService.createAdmin hash sch (VObj data) st = (Ok res, st') ->
        res = VObj [("createdUserData",
                     VObj [("email", prop a "email");
                           ("password", VStr h); ("role", VStr "ADMIN")]);
                    ("createdAdminData", VObj a)]).
Proof.
  intros Hpw Hadmin Hhash.
  assert (Hp : userService.prepare hash (VObj data)
               = Ok ([("email", prop a "email");
                      ("password", VStr h); ("role", VStr "ADMIN")], a)).
  { assert (Hpp : prop data "password" = VStr p)
      by (unfold prop; rewrite Hpw; reflexivity).
    assert (Hpa : prop data "admin" = VObj a)
      by (unfold prop; rewrite Hadmin; reflexivity).
    unfold userService.prepare. simpl. rewrite Hpp. simpl.
    rewrite Hhash. simpl. rewrite Hpa. reflexivity. }
  split; [exact Hp|]. split.
  - intros Hu Ha. rewrite (createAdmin_prepared _ _ _ _ _ _ Hp), Hu.
    match goal with
    | |- match ?t with _ => _ end = _ =>
        assert (E : t = None) by exact Ha; rewrite E
    end.
    reflexivity.
  - intros res st'. rewrite (createAdmin_prepared _ _ _ _ _ _ Hp).
    destruct (user_violation sch st _); [discriminate|].
    destruct (admin_violation sch _ a); [discriminate|].
    intros E. inversion E. reflexivity.
Qed.

(** Scenario 1 of the specification on the empty store. *)
Lemma createAdmin_scenario1 :
  lookup "password" (own_props Fixture.payload) = Some (VStr "Secret1")
  /\ lookup "admin" (own_props Fixture.payload)
     = Some (VObj [("email", VStr "a@x.com"); ("name", VStr "A")])
  /\ Fixture.hash (VStr "Secret1") 10%Z = Ok "$2b$10$Secret1"
  /\ userService.createAdmin Fixture.hash Fixture.sch Fixture.payload Fixture.empty
     = (Ok (VObj [("createdUserData",
                   VObj [("email", VStr "a@x.com"); ("password", VStr "$2b$10$Secret1");
                         ("role", VStr "ADMIN")]);
                  ("createdAdminData", VObj [("email", VStr "a@x.com"); ("name", VStr "A")])]),
        mkStore [[("email", VStr "a@x.com"); ("password", VStr "$2b$10$Secret1");
                  ("role", VStr "ADMIN")]]
                [[("email", VStr "a@x.com"); ("name", VStr "A")]]).
Proof.
  split; [reflexivity|]. split; [reflexivity|]. split; [reflexivity|].
  exact (proj1 (proj2 (createAdmin_builds_and_returns_both_records
                         Fixture.hash Fixture.sch (own_props Fixture.payload) Fixture.empty
                         "Secret1" "$2b$10$Secret1"
                         [("email", VStr "a@x.com"); ("name", VStr "A")]
                         eq_refl eq_refl eq_refl)) eq_refl eq_refl).
Defined.

Lemma bind_Ok {A B} (m : outcome A) (k : A -> outcome B) (b : B) :
  bind m k = Ok b -> exists a, m = Ok a /\ k a = Ok b.
Proof.
  destruct m as [a|e]; simpl; [eauto | discriminate].
Qed.

Lemma get_Ok (v x : value) (k : string) :
  get v k = Ok x -> x = prop (own_props v) k.
Proof.
  destruct v; simpl; try discriminate; intros E; inversion E; reflexivity.
Qed.

Lemma prepare_inv (hash : userService.hasher) (data : value) (u a : object) :
  userService.prepare hash data = Ok (u, a) ->
  exists h admin,
    hash (prop (own_props data) "password") 10%Z = Ok h
    /\ u = [("email", prop (own_props admin) "email"); ("password", VStr h);
            ("role", VStr "ADMIN")]
    /\ a = own_props admin.
Proof.
  unfold userService.prepare. intros H.
  apply bind_Ok in H. destruct H as [pw [Hpw H]].
  apply bind_Ok in H. destruct H as [h [Hh H]].
  apply bind_Ok in H. destruct H as [admin [Hadmin H]].
  apply bind_Ok in H. destruct H as [email [Hemail H]].
  inversion H; subst. clear H.
  apply get_Ok in Hpw. apply get_Ok in Hemail. subst.
  exists h, admin. repeat split. exact Hh.
Qed.

(** C7. Whenever [createAdmin] creates the records, the [password] of the
    stored (and returned) user row is what the hash primitive gave for
    [data.password] at cost 10; it is not the plaintext unless the primitive
    itself returns its input.  Only the behaviour of the primitive at cost
    10 matters to [createAdmin]. *)
Theorem createAdmin_stores_the_hash_at_cost_10
    (hash : userService.hasher) (sch : schema) (data : value) (st st' : store)
    (res : value) :
  userService.createAdmin hash sch data st = (Ok res, st') ->
  (exists h u,
     hash (prop (own_props data) "password") 10%Z = Ok h
     /\ users st' = users st ++ [u]
     /\ prop (own_props res) "createdUserData" = VObj u
     /\ lookup "password" u = Some (VStr h)
     /\ (forall p, h <> p -> lookup "password" u <> Some (VStr p)))
  /\ (forall hash' : userService.hasher,
        (forall v, hash' v 10%Z = hash v 10%Z) ->
        userService.createAdmin hash' sch data st = (Ok res, st')).
Proof.
  intros Hc. split.
  - destruct (userService.prepare hash data) as [[u a]|e] eqn:Hp.
    + rewrite (createAdmin_prepared hash sch data st u a Hp) in Hc.
      destruct (user_violation sch st u); [discriminate|].
      destruct (admin_violation sch _ a); [discriminate|].
      inversion Hc; subst. clear Hc.
      destruct (prepare_inv hash data u a Hp) as [h [admin [Hh [-> _]]]].
      exists h. eexists. repeat split; [exact Hh|].
      intros p Hne E. inversion E. congruence.
    + unfold userService.createAdmin in Hc. rewrite Hp in Hc. discriminate.
  - intros hash' Hagree. rewrite <- Hc.
    unfold userService.createAdmin, userService.prepare.
    destruct (get data "password") as [pw|e]; simpl; [|reflexivity].
    rewrite Hagree. reflexivity.
Qed.

(** On the fixture the stored password is the marked text, not [Secret1]. *)
Lemma createAdmin_stores_the_hash_of_Secret1 :
  userService.createAdmin Fixture.hash Fixture.sch Fixture.payload Fixture.empty
  = (Ok (VObj [("createdUserData",
                VObj [("email", VStr "a@x.com"); ("password", VStr "$2b$10$Secret1");
                      ("role", VStr "ADMIN")]);
               ("createdAdminData", VObj [("email", VStr "a@x.com"); ("name", VStr "A")])]),
     mkStore [[("email", VStr "a@x.com"); ("password", VStr "$2b$10$Secret1");
               ("role", VStr "ADMIN")]]
             [[("email", VStr "a@x.com"); ("name", VStr "A")]])
  /\ exists h u,
       Fixture.hash (VStr "Secret1") 10%Z = Ok h
       /\ lookup "password" u = Some (VStr h)
       /\ lookup "password" u <> Some (VStr "Secret1").
Proof.
  split; [reflexivity|].
  destruct (proj1 (createAdmin_stores_the_hash_at_cost_10
                     Fixture.hash Fixture.sch Fixture.payload Fixture.empty _ _ eq_refl))
    as [h [u [Hh [_ [_ [Hu Hne]]]]]].
  exists h, u. split; [exact Hh|]. split; [exact Hu|].
  apply Hne. simpl in Hh. inversion Hh. discriminate.
Defined.

(** * Further properties of the services *)

(** ** The listing as a function of its parameters *)

Lemma lower_empty (s : string) : (Text.lower s =? "") = (s =? "").
Proof.
  destruct s; reflexivity.
Qed.

Lemma eqb_empty_lower (s1 s2 : string) :
  Text.lower s1 = Text.lower s2 -> (s1 =? "") = (s2 =? "").
Proof.
  intros E. rewrite <- (lower_empty s1), <- (lower_empty s2), E. reflexivity.
Qed.

Lemma field_like_lower (sch : schema) (r : object) (f s1 s2 : string) :
  Text.lower s1 = Text.lower s2 ->
  Listing.field_like sch r f s1 = Listing.field_like sch r f s2.
Proof.
  intros E. unfold Listing.field_like, ilower.
  rewrite !lower_contains_pattern, E. reflexivity.
Qed.

Lemma invalid_AND_cons (cols : list string) (w : where_input) (l : list where_input) :
  invalid cols (AND (w :: l))
  = match invalid cols w with
    | Some e => Some e
    | None => invalid cols (AND l)
    end.
Proof. reflexivity. Qed.

Lemma invalid_search_clause_any (cols : list string) (s1 s2 : string) :
  invalid cols (AdminService.search_clause (VStr s1))
  = invalid cols (AdminService.search_clause (VStr s2)).
Proof. reflexivity. Qed.

(** X1. The search does not look at the case of the letters of the search
    term: two terms that agree up to the case of A-Z give the same outcome,
    whatever the other parameters are. *)
Theorem search_ignores_the_case_of_the_term
    (sch : schema) (st : store) (o : object) (s1 s2 : string) :
  Text.lower s1 = Text.lower s2 ->
  AdminService.getAllFromDB sch (VObj (("searchTerm", VStr s1) :: o)) st
  = AdminService.getAllFromDB sch (VObj (("searchTerm", VStr s2) :: o)) st.
Proof.
  intros E.
  unfold AdminService.getAllFromDB.
  rewrite !whereConditions_defined by discriminate.
  simpl own_props.
  change (prop (("searchTerm", VStr s1) :: o) "searchTerm") with (VStr s1).
  change (prop (("searchTerm", VStr s2) :: o) "searchTerm") with (VStr s2).
  change (without "searchTerm" (("searchTerm", VStr s1) :: o))
    with (without "searchTerm" o).
  change (without "searchTerm" (("searchTerm", VStr s2) :: o))
    with (without "searchTerm" o).
  unfold AdminService.addCondition, truthy.
  rewrite (eqb_empty_lower s1 s2 E).
  destruct (s2 =? ""); simpl negb; cbn iota; [reflexivity|].
  simpl bind. unfold findMany. simpl app.
  rewrite !invalid_AND_cons.
  rewrite (invalid_search_clause_any (admin_columns sch) s1 s2).
  destruct (invalid (admin_columns sch) (AdminService.search_clause (VStr s2)));
    [reflexivity|].
  destruct (invalid (admin_columns sch) (AND _)); [reflexivity|].
  f_equal. apply filter_ext. intros r.
  cbn [sat forallb]. rewrite !sat_search_clause.
  rewrite (field_like_lower sch r "name" s1 s2 E).
  rewrite (field_like_lower sch r "email" s1 s2 E).
  reflexivity.
Qed.

(** [searchTerm=DOE] and [searchTerm=doe] on the fixture. *)
Lemma search_DOE_is_search_doe :
  Text.lower "DOE" = Text.lower "doe"
  /\ AdminService.getAllFromDB Fixture.sch (VObj [("searchTerm", VStr "DOE")]) Fixture.st
     = AdminService.getAllFromDB Fixture.sch (VObj [("searchTerm", VStr "doe")]) Fixture.st.
Proof.
  split; [reflexivity|].
  exact (search_ignores_the_case_of_the_term Fixture.sch Fixture.st [] "DOE" "doe" eq_refl).
Defined.

Lemma assoc_In (k v : string) (q : Spec.query) :
  NoDup (map fst q) -> (Spec.assoc k q = Some v <-> In (k, v) q).
Proof.
  induction q as [|[k' v'] q IH]; simpl; intros Hnd.
  - split; [discriminate | contradiction].
  - inversion Hnd as [|? ? Hk Hnd']; subst.
    destruct (k' =? k) eqn:E.
    + apply String.eqb_eq in E. subst k'. split.
      * intros H. inversion H. left. reflexivity.
      * intros [H|H]; [inversion H; reflexivity|].
        exfalso. apply Hk. apply in_map_iff. exists (k, v). split; auto.
    + rewrite (IH Hnd'). apply String.eqb_neq in E. split.
      * auto.
      * intros [H|H]; [inversion H; congruence | exact H].
Qed.

Lemma assoc_Permutation (k : string) (q q' : Spec.query) :
  NoDup (map fst q) -> Permutation q q' -> Spec.assoc k q = Spec.assoc k q'.
Proof.
  intros Hnd Hp.
  assert (Hnd' : NoDup (map fst q'))
    by (eapply Permutation_NoDup; [apply Permutation_map; exact Hp | exact Hnd]).
  destruct (Spec.assoc k q) as [v|] eqn:E.
  - symmetry. apply (assoc_In k v q' Hnd').
    apply (Permutation_in _ Hp). apply (assoc_In k v q Hnd). exact E.
  - destruct (Spec.assoc k q') as [v'|] eqn:E'; [|reflexivity].
    apply (assoc_In k v' q' Hnd') in E'.
    apply (Permutation_in _ (Permutation_sym Hp)) in E'.
    apply (assoc_In k v' q Hnd) in E'. congruence.
Qed.

Lemma exact_pairs_Permutation (q q' : Spec.query) :
  Permutation q q' -> Permutation (Spec.exact_pairs q) (Spec.exact_pairs q').
Proof.
  unfold Spec.exact_pairs.
  induction 1 as [|p l l' Hp IH|p p' l|l l' l'' H1 IH1 H2 IH2]; simpl.
  - constructor.
  - destruct (negb (fst p =? "searchTerm")); [constructor|]; exact IH.
  - destruct (negb (fst p =? "searchTerm")), (negb (fst p' =? "searchTerm"));
      try apply perm_swap; apply Permutation_refl.
  - eapply Permutation_trans; eassumption.
Qed.

Lemma forallb_Permutation {A} (f : A -> bool) (l l' : list A) :
  Permutation l l' -> forallb f l = forallb f l'.
Proof.
  induction 1 as [|p l l' Hp IH|p p' l|l l' l'' H1 IH1 H2 IH2]; simpl.
  - reflexivity.
  - rewrite IH. reflexivity.
  - destruct (f p), (f p'); reflexivity.
  - congruence.
Qed.

Lemma selects_Permutation (sch : schema) (q q' : Spec.query) (r : object) :
  NoDup (map fst q) -> Permutation q q' ->
  Listing.selects sch q r = Listing.selects sch q' r.
Proof.
  intros Hnd Hp. unfold Listing.selects, Listing.search_part, Spec.exact_part.
  rewrite (assoc_Permutation "searchTerm" q q' Hnd Hp).
  rewrite (forallb_Permutation _ _ _ (exact_pairs_Permutation q q' Hp)).
  reflexivity.
Qed.

(** X2. The answer does not depend on the order of the parameters: two
    query-string mappings with the same pairs in any order, well formed for
    the schema, are answered with the same rows. *)
Theorem parameter_order_does_not_matter
    (sch : schema) (st : store) (q q' : Spec.query) :
  Permutation q q' ->
  Spec.well_formed sch q = true ->
  AdminService.getAllFromDB sch (VObj (Spec.params_of q')) st
  = AdminService.getAllFromDB sch (VObj (Spec.params_of q)) st.
Proof.
  intros Hp Hwf. apply well_formed_inv in Hwf.
  destruct Hwf as [Hnd [Hcols [Hname Hemail]]].
  assert (Hnd' : NoDup (map fst q'))
    by (eapply Permutation_NoDup; [apply Permutation_map; exact Hp | exact Hnd]).
  assert (Hcols' : forall k, In k (map fst (Spec.exact_pairs q')) -> In k (admin_columns sch)).
  { intros k Hk. apply Hcols.
    apply (Permutation_in k (Permutation_map fst
             (Permutation_sym (exact_pairs_Permutation q q' Hp)))). exact Hk. }
  rewrite (getAllFromDB_query_rows sch st q Hnd Hcols Hname Hemail).
  rewrite (getAllFromDB_query_rows sch st q' Hnd' Hcols' Hname Hemail).
  f_equal. apply filter_ext. intros r. symmetry.
  apply selects_Permutation; assumption.
Qed.

(** [email=j@x.com&searchTerm=doe] and [searchTerm=doe&email=j@x.com]. *)
Lemma email_then_term_is_term_then_email :
  Permutation [("searchTerm", "doe"); ("email", "j@x.com")]
              [("email", "j@x.com"); ("searchTerm", "doe")]
  /\ Spec.well_formed Fixture.sch [("searchTerm", "doe"); ("email", "j@x.com")] = true
  /\ AdminService.getAllFromDB Fixture.sch
       (VObj [("email", VStr "j@x.com"); ("searchTerm", VStr "doe")]) Fixture.st
     = AdminService.getAllFromDB Fixture.sch
         (VObj [("searchTerm", VStr "doe"); ("email", VStr "j@x.com")]) Fixture.st.
Proof.
  split; [apply perm_swap|]. split; [reflexivity|].
  exact (parameter_order_does_not_matter Fixture.sch Fixture.st
           [("searchTerm", "doe"); ("email", "j@x.com")]
           [("email", "j@x.com"); ("searchTerm", "doe")]
           (perm_swap _ _ _) eq_refl).
Defined.

Lemma assoc_app_other (k k' v : string) (q : Spec.query) :
  k' <> k -> Spec.assoc k (q ++ [(k', v)]) = Spec.assoc k q.
Proof.
  intros Hne. induction q as [|[k0 v0] q IH]; simpl.
  - apply String.eqb_neq in Hne. rewrite Hne. reflexivity.
  - destruct (k0 =? k); [reflexivity | exact IH].
Qed.

Lemma exact_pairs_app (q q' : Spec.query) :
  Spec.exact_pairs (q ++ q') = Spec.exact_pairs q ++ Spec.exact_pairs q'.
Proof.
  unfold Spec.exact_pairs. apply filter_app.
Qed.

Lemma filter_andb {A} (f g : A -> bool) (l : list A) :
  filter (fun x => f x && g x) l = filter g (filter f l).
Proof.
  induction l as [|x l IH]; simpl; [reflexivity|].
  destruct (f x); simpl; [destruct (g x)|]; rewrite IH; reflexivity.
Qed.

(** X3. Exact-match parameters compose by conjunction: a query with one
    more exact-match parameter [k=v] returns the rows of the query without
    it, filtered on [k] holding [v]. *)
Theorem one_more_parameter_filters_the_previous_rows
    (sch : schema) (st : store) (q : Spec.query) (k v : string) :
  (k =? "searchTerm") = false ->
  Spec.well_formed sch (q ++ [(k, v)]) = true ->
  exists rows,
    AdminService.getAllFromDB sch (VObj (Spec.params_of q)) st = Ok rows
    /\ AdminService.getAllFromDB sch (VObj (Spec.params_of (q ++ [(k, v)]))) st
       = Ok (filter (fun r => Spec.field_equals r k v) rows).
Proof.
  intros Hk Hwf. apply well_formed_inv in Hwf.
  destruct Hwf as [Hnd [Hcols [Hname Hemail]]].
  assert (Hne : k <> "searchTerm") by (apply String.eqb_neq; exact Hk).
  assert (Hnd0 : NoDup (map fst q)).
  { rewrite map_app in Hnd. apply NoDup_app_remove_r in Hnd. exact Hnd. }
  assert (Hcols0 : forall k', In k' (map fst (Spec.exact_pairs q)) ->
                              In k' (admin_columns sch)).
  { intros k' Hk'. apply Hcols. rewrite exact_pairs_app, map_app.
    apply in_or_app. left. exact Hk'. }
  exists (filter (Listing.selects sch q) (admins st)). split.
  - apply getAllFromDB_query_rows; assumption.
  - rewrite (getAllFromDB_query_rows sch st (q ++ [(k, v)]) Hnd Hcols Hname Hemail).
    f_equal. rewrite <- filter_andb. apply filter_ext. intros r.
    unfold Listing.selects, Listing.search_part, Spec.exact_part.
    rewrite (assoc_app_other "searchTerm" k v q Hne).
    rewrite exact_pairs_app, forallb_app.
    unfold Spec.exact_pairs at 2. simpl. rewrite Hk. simpl.
    rewrite andb_true_r, andb_assoc. reflexivity.
Qed.

(** [searchTerm=o] narrowed by [name=Jane Roe] on the fixture. *)
Lemma term_o_narrowed_by_name :
  ("name" =? "searchTerm") = false
  /\ Spec.well_formed Fixture.sch [("searchTerm", "o"); ("name", "Jane Roe")] = true
  /\ AdminService.getAllFromDB Fixture.sch (VObj [("searchTerm", VStr "o")]) Fixture.st
     = Ok [Fixture.john; Fixture.jane; Fixture.anon]
  /\ AdminService.getAllFromDB Fixture.sch
       (VObj [("searchTerm", VStr "o"); ("name", VStr "Jane Roe")]) Fixture.st
     = Ok [Fixture.jane].
Proof.
  split; [reflexivity|]. split; [reflexivity|].
  destruct (one_more_parameter_filters_the_previous_rows
              Fixture.sch Fixture.st [("searchTerm", "o")] "name" "Jane Roe"
              eq_refl eq_refl) as [rows [H1 H2]].
  split; [reflexivity|].
  simpl in H1. inversion H1 as [E]. rewrite <- E in H2. exact H2.
Defined.

(** X4. [searchTerm] is never turned into an exact-match condition: in the
    filter built for any argument, no condition of the [AND] clause is on a
    field called [searchTerm]. *)
Theorem searchTerm_is_never_an_exact_match_field
    (params : value) (w l : list where_input) (c : field_filter) :
  AdminService.whereConditions params = Ok (AND w) ->
  In (AND l) w ->
  ~ In (Field "searchTerm" c) l.
Proof.
  intros Hw Hl Hin.
  assert (Hu : params <> VUndefined) by (intros ->; discriminate Hw).
  assert (Hn : params <> VNull) by (intros ->; discriminate Hw).
  rewrite (whereConditions_defined params Hu Hn) in Hw.
  inversion Hw as [E]. subst w. clear Hw.
  unfold AdminService.addCondition in Hl.
  apply in_app_or in Hl. destruct Hl as [Hl|Hl].
  - destruct (truthy _); simpl in Hl; [|contradiction].
    destruct Hl as [Hl|[]]. discriminate Hl.
  - destruct (0 <? _)%nat; simpl in Hl; [|contradiction].
    destruct Hl as [Hl|[]]. unfold AdminService.rest_clause in Hl.
    inversion Hl as [E]. subst l. clear Hl.
    apply in_map_iff in Hin. destruct Hin as [key [E Hkey]].
    inversion E; subst. apply keys_without in Hkey. destruct Hkey as [_ Hne].
    apply Hne. reflexivity.
Qed.

(** The filter for [{searchTerm: "doe", name: "John Doe"}]. *)
Lemma searchTerm_doe_is_not_a_field :
  AdminService.whereConditions (VObj [("searchTerm", VStr "doe"); ("name", VStr "John Doe")])
  = Ok (AND [AdminService.search_clause (VStr "doe");
             AND [Field "name" (Equals (VStr "John Doe"))]])
  /\ ~ In (Field "searchTerm" (Equals (VStr "doe")))
          [Field "name" (Equals (VStr "John Doe"))].
Proof.
  split; [reflexivity|].
  exact (searchTerm_is_never_an_exact_match_field
           (VObj [("searchTerm", VStr "doe"); ("name", VStr "John Doe")])
           [AdminService.search_clause (VStr "doe");
            AND [Field "name" (Equals (VStr "John Doe"))]]
           [Field "name" (Equals (VStr "John Doe"))]
           (Equals (VStr "doe")) eq_refl (or_intror (or_introl eq_refl))).
Defined.

(** ** Admin creation: failures before the transaction, and what is written *)

Lemma createAdmin_not_prepared (hash : userService.hasher) (sch : schema)
    (data : value) (st : store) (e : thrown) :
  userService.prepare hash data = Throw e ->
  userService.createAdmin hash sch data st = (Throw e, st).
Proof.
  intros Hp. unfold userService.createAdmin. rewrite Hp. reflexivity.
Qed.

Lemma get_defined (d : value) (k : string) :
  d <> VUndefined -> d <> VNull -> get d k = Ok (prop (own_props d) k).
Proof.
  intros Hu Hn. destruct d; try congruence; reflexivity.
Qed.

(** X5. The password is hashed before anything else of the payload is
    looked at: when the hash primitive rejects, [createAdmin] throws that
    very error, whatever the rest of the payload, the schema and the store
    are, and the store is as it was. *)
Theorem createAdmin_passes_on_the_rejection_of_the_hash
    (hash : userService.hasher) (data : value) (e : thrown) :
  data <> VUndefined -> data <> VNull ->
  hash (prop (own_props data) "password") 10%Z = Throw e ->
  forall sch st, userService.createAdmin hash sch data st = (Throw e, st).
Proof.
  intros Hu Hn Hh sch st. apply createAdmin_not_prepared.
  unfold userService.prepare.
  rewrite (get_defined data "password" Hu Hn). cbn [bind].
  rewrite Hh. reflexivity.
Qed.

(** A numeric password and no [admin]: the error is the one of the hash. *)
Lemma numeric_password_is_rejected_by_the_hash :
  VObj [("password", VNum 7)] <> VUndefined
  /\ VObj [("password", VNum 7)] <> VNull
  /\ userService.createAdmin Fixture.hash Fixture.sch (VObj [("password", VNum 7)]) Fixture.st
     = (Throw (ErrorObj "Error" "data and salt arguments required"), Fixture.st).
Proof.
  split; [discriminate|]. split; [discriminate|].
  exact (createAdmin_passes_on_the_rejection_of_the_hash
           Fixture.hash (VObj [("password", VNum 7)])
           (ErrorObj "Error" "data and salt arguments required")
           ltac:(discriminate) ltac:(discriminate) eq_refl Fixture.sch Fixture.st).
Defined.

(** X6. A payload whose [admin] is missing, [undefined] or [null] is
    refused with a [TypeError] once the password is hashed: no write is
    attempted, so the error is the same for every schema and store, and the
    store is as it was. *)
Theorem createAdmin_without_admin_is_a_TypeError
    (hash : userService.hasher) (data : value) (h : string) :
  hash (prop (own_props data) "password") 10%Z = Ok h ->
  prop (own_props data) "admin" = VUndefined \/ prop (own_props data) "admin" = VNull ->
  exists m, forall sch st,
    userService.createAdmin hash sch data st = (Throw (TypeError m), st).
Proof.
  intros Hh Ha.
  assert (Hp : exists m, userService.prepare hash data = Throw (TypeError m)).
  { unfold userService.prepare.
    destruct data eqn:Ed; try (eexists; reflexivity);
      rewrite <- Ed in *;
      (rewrite !(get_defined data) by (rewrite Ed; discriminate));
      cbn [bind]; rewrite Hh; cbn [bind];
      destruct Ha as [-> | ->]; eexists; reflexivity. }
  destruct Hp as [m Hp]. exists m. intros sch st.
  apply createAdmin_not_prepared. exact Hp.
Qed.

(** [{password: "Secret1"}] on the fixture. *)
Lemma payload_without_admin_is_refused :
  Fixture.hash (prop [("password", VStr "Secret1")] "password") 10%Z = Ok "$2b$10$Secret1"
  /\ (prop [("password", VStr "Secret1")] "admin" = VUndefined
      \/ prop [("password", VStr "Secret1")] "admin" = VNull)
  /\ exists m,
       userService.createAdmin Fixture.hash Fixture.sch
         (VObj [("password", VStr "Secret1")]) Fixture.st
       = (Throw (TypeError m), Fixture.st).
Proof.
  split; [reflexivity|]. split; [left; reflexivity|].
  destruct (createAdmin_without_admin_is_a_TypeError
              Fixture.hash (VObj [("password", VStr "Secret1")]) "$2b$10$Secret1"
              eq_refl (or_introl eq_refl)) as [m Hm].
  exists m. apply Hm.
Defined.

Lemma Exists_app_l {A} (P : A -> Prop) (l l' : list A) :
  Exists P l -> Exists P (l ++ l').
Proof.
  intros H. apply Exists_app. left. exact H.
Qed.

(** X7. [createAdmin] keeps the two tables paired: if every admin row has a
    user row with the same [email] and the role [ADMIN] before the call, the
    same holds after it, whether it returns or throws. *)
Theorem createAdmin_keeps_admins_paired_with_users
    (hash : userService.hasher) (sch : schema) (data : value) (st : store) :
  Pairing.paired st ->
  Pairing.paired (snd (userService.createAdmin hash sch data st)).
Proof.
  intros Hinv.
  destruct (userService.prepare hash data) as [[u a]|e] eqn:Hp.
  - rewrite (createAdmin_prepared hash sch data st u a Hp).
    destruct (user_violation sch st u); [exact Hinv|].
    destruct (admin_violation sch _ a); [exact Hinv|].
    destruct (prepare_inv hash data u a Hp) as [h [admin [_ [-> ->]]]].
    unfold Pairing.paired, Pairing.has_user in *. simpl.
    apply Forall_app. split.
    + eapply Forall_impl; [|exact Hinv].
      intros a0 Ha0. apply Exists_app_l. exact Ha0.
    + constructor; [|constructor].
      apply Exists_app. right. constructor. split; reflexivity.
  - rewrite (createAdmin_not_prepared hash sch data st e Hp). exact Hinv.
Qed.

(** The empty store is paired, and so is the store after scenario 1. *)
Lemma scenario1_leaves_the_store_paired :
  Pairing.paired Fixture.empty
  /\ Pairing.paired
       (snd (userService.createAdmin Fixture.hash Fixture.sch Fixture.payload Fixture.empty)).
Proof.
  assert (H : Pairing.paired Fixture.empty) by constructor.
  split; [exact H|].
  exact (createAdmin_keeps_admins_paired_with_users
           Fixture.hash Fixture.sch Fixture.payload Fixture.empty H).
Defined.

(** X8. [createAdmin] reads only [password] and [admin] of the payload: two
    payloads that agree on these two properties have the same outcome and
    leave the same store, so no other key of the payload (a [role], say)
    can reach either record. *)
Theorem createAdmin_reads_only_password_and_admin
    (hash : userService.hasher) (sch : schema) (data data' : value) (st : store) :
  data <> VUndefined -> data <> VNull ->
  data' <> VUndefined -> data' <> VNull ->
  prop (own_props data) "password" = prop (own_props data') "password" ->
  prop (own_props data) "admin" = prop (own_props data') "admin" ->
  userService.createAdmin hash sch data st = userService.createAdmin hash sch data' st.
Proof.
  intros Hu Hn Hu' Hn' Hpw Hadmin.
  assert (Hp : userService.prepare hash data = userService.prepare hash data').
  { unfold userService.prepare.
    rewrite (get_defined data "password" Hu Hn), (get_defined data' "password" Hu' Hn').
    cbn [bind]. rewrite Hpw.
    destruct (hash _ 10%Z); cbn [bind]; [|reflexivity].
    rewrite (get_defined data "admin" Hu Hn), (get_defined data' "admin" Hu' Hn').
    cbn [bind]. rewrite Hadmin. reflexivity. }
  unfold userService.createAdmin. rewrite Hp. reflexivity.
Qed.

(** A [role] sent with the payload changes nothing. *)
Lemma role_in_the_payload_is_ignored :
  userService.createAdmin Fixture.hash Fixture.sch
    (VObj [("role", VStr "SUPER_ADMIN"); ("password", VStr "Secret1");
           ("admin", VObj [("email", VStr "a@x.com"); ("name", VStr "A")])])
    Fixture.empty
  = userService.createAdmin Fixture.hash Fixture.sch Fixture.payload Fixture.empty.
Proof.
  exact (createAdmin_reads_only_password_and_admin
           Fixture.hash Fixture.sch
           (VObj [("role", VStr "SUPER_ADMIN"); ("password", VStr "Secret1");
                  ("admin", VObj [("email", VStr "a@x.com"); ("name", VStr "A")])])
           Fixture.payload Fixture.empty
           ltac:(discriminate) ltac:(discriminate) ltac:(discriminate) ltac:(discriminate)
           eq_refl eq_refl).
Defined.

(** ** The handlers, end to end *)

(** X9. The creation handler writes exactly when it answers 200: either the
    answer is 500 and the store is as it was, or the answer is 200, the store
    has gained one user row and one admin row, and these two rows are the
    [data] of the answer. *)
Theorem createAdmin_handler_writes_exactly_when_it_answers_200
    (hash : userService.hasher) (sch : schema) (req : Http.request) (st : store) :
  (Http.status (fst (userController.createAdmin hash sch req st)) = 500%Z
   /\ snd (userController.createAdmin hash sch req st) = st)
  \/ (Http.status (fst (userController.createAdmin hash sch req st)) = 200%Z
      /\ exists u a,
           snd (userController.createAdmin hash sch req st)
           = mkStore (users st ++ [u]) (admins st ++ [a])
           /\ prop (own_props (Http.json (fst (userController.createAdmin hash sch req st))))
                   "data"
              = VObj [("createdUserData", VObj u); ("createdAdminData", VObj a)]).
Proof.
  unfold userController.createAdmin.
  destruct (userService.prepare hash (Http.body req)) as [[u a]|e] eqn:Hp.
  - rewrite (createAdmin_prepared hash sch (Http.body req) st u a Hp).
    destruct (user_violation sch st u) as [e|];
      [left; destruct e; split; reflexivity|].
    destruct (admin_violation sch _ a) as [e|];
      [left; destruct e; split; reflexivity|].
    right. split; [reflexivity|]. exists u, a. split; reflexivity.
  - rewrite (createAdmin_not_prepared hash sch (Http.body req) st e Hp).
    left. destruct e; split; reflexivity.
Qed.

Lemma or_else_not_empty (a b : string) : b <> "" -> or_else a b <> "".
Proof.
  intros Hb. unfold or_else. destruct (a =? "") eqn:E; [exact Hb|].
  apply String.eqb_neq. exact E.
Qed.

Lemma failure_message (fallback : string) (err : thrown) :
  fallback <> "" ->
  exists m, prop (own_props (Http.json (Http.failure fallback err))) "message" = VStr m
            /\ m <> "".
Proof.
  intros Hf. destruct err as [name message|v]; simpl.
  - exists (or_else name fallback). split; [reflexivity|].
    apply or_else_not_empty. exact Hf.
  - exists fallback. split; [reflexivity | exact Hf].
Qed.

(** X10. Every answer of the two handlers carries a non-empty text
    [message], and it is: the handler's fixed text when the service
    returns; the name of the error when the service throws an [Error] with
    a name; the handler's fallback text when the error has no name or what
    is thrown is not an [Error]. *)
Theorem every_answer_carries_a_message
    (hash : userService.hasher) (sch : schema) (req : Http.request) (st : store) :
  (exists m,
     prop (own_props (Http.json (fst (userController.createAdmin hash sch req st)))) "message"
     = VStr m /\ m <> "")
  /\ (exists m,
        prop (own_props (Http.json (AdminController.getAllFromDB sch req st))) "message"
        = VStr m /\ m <> "")
  /\ prop (own_props (Http.json (fst (userController.createAdmin hash sch req st)))) "message"
     = VStr match fst (userService.createAdmin hash sch (Http.body req) st) with
            | Ok _ => "Admin Created Successfully!"
            | Throw (ErrorObj name _) =>
                if name =? "" then "Failed to create Admin" else name
            | Throw (Raw _) => "Failed to create Admin"
            end
  /\ prop (own_props (Http.json (AdminController.getAllFromDB sch req st))) "message"
     = VStr match AdminService.getAllFromDB sch
                    (VObj (Http.pick (Http.query req) AdminController.filterable)) st with
            | Ok _ => "Admins Fetched Successfully!"
            | Throw (ErrorObj name _) =>
                if name =? "" then "Failed to fetch Admins" else name
            | Throw (Raw _) => "Failed to fetch Admins"
            end.
Proof.
  split; [|split; [|split]].
  - unfold userController.createAdmin.
    destruct (userService.createAdmin hash sch (Http.body req) st) as [[v|err] st']; simpl fst.
    + eexists. split; [reflexivity | discriminate].
    + apply failure_message. discriminate.
  - unfold AdminController.getAllFromDB.
    destruct (AdminService.getAllFromDB sch _ st) as [rows|err].
    + eexists. split; [reflexivity | discriminate].
    + apply failure_message. discriminate.
  - unfold userController.createAdmin.
    destruct (userService.createAdmin hash sch (Http.body req) st) as [[v|[name msg|v]] st'];
      reflexivity.
  - unfold AdminController.getAllFromDB.
    destruct (AdminService.getAllFromDB sch _ st) as [rows|[name msg|v]]; reflexivity.
Qed.
